(** * Bus-tracking API service: the read-through / write-invalidate layer

    A shallow embedding of the TypeScript sources of the api-service
    package (the Redis-backed [CacheService], the generic [DBRepository]
    over the PostgreSQL [DBService], and the Express [ApiController]) and
    the properties of its caching layer.

    Layout:
    - [Js]: the fragment of JavaScript values the handlers manipulate
      (truthiness, [String(v)], [JSON.stringify]);
    - [Eff]: the state-and-exception monad in which the asynchronous
      methods run, with the event log and the interfaces of the two
      clients;
    - [Service]: the three classes, method by method, over an arbitrary
      cache engine, store executor and [JSON.parse];
    - [Ref]: reference engines (an in-memory Redis keyspace, a one-table
      relational store);
    - [Notions], [Scenario]: the vocabulary of the statements and the two
      routes of the specification's scenario;
    - [Runs]: what each method and each handler does, branch by branch;
    - the properties of the caching layer. *)

From Stdlib Require Import ZArith String Ascii List Lia DecimalString.
From stdpp Require Import gmap strings list.

Set Warnings "-register-all".
Local Open Scope string_scope.
Local Open Scope Z_scope.

(* ===================================================================== *)
(** ** JavaScript values *)
(* ===================================================================== *)

Module Js.

(** Values.  Numbers are integers (the service handles identifiers,
    limits, offsets and row counts); a string is a sequence of code units
    below 256.  An object lists its own enumerable properties in the order
    in which [Object.keys] enumerates them. *)
Inductive jsval : Type :=
| JUndefined
| JNull
| JBool (b : bool)
| JNum (n : Z)
| JStr (s : string)
| JArr (elems : list jsval)
| JObj (fields : list (string * jsval)).

(** [!!v] *)
Definition truthy (v : jsval) : bool :=
  match v with
  | JUndefined | JNull => false
  | JBool b => b
  | JNum n => negb (n =? 0)
  | JStr s => negb (String.eqb s "")
  | JArr _ | JObj _ => true
  end.

(** [Array.prototype.join] *)
Fixpoint join (sep : string) (parts : list string) : string :=
  match parts with
  | [] => ""
  | [p] => p
  | p :: rest => p ++ sep ++ join sep rest
  end.

(** Decimal rendering of an integer, as [Number.prototype.toString]. *)
Definition num_to_string (n : Z) : string :=
  NilZero.string_of_int (Z.to_int n).

Definition nat_to_string (n : nat) : string := num_to_string (Z.of_nat n).

(** [String(v)].  An array is joined with commas, [null] and [undefined]
    elements contributing the empty string; a plain object prints as
    [[object Object]]. *)
Fixpoint ToString (v : jsval) : string :=
  match v with
  | JUndefined => "undefined"
  | JNull => "null"
  | JBool true => "true"
  | JBool false => "false"
  | JNum n => num_to_string n
  | JStr s => s
  | JArr elems =>
      join ","
        ((fix elems_text (l : list jsval) : list string :=
            match l with
            | [] => []
            | JUndefined :: l' | JNull :: l' => "" :: elems_text l'
            | x :: l' => ToString x :: elems_text l'
            end) elems)
  | JObj _ => "[object Object]"
  end.

(** *** [JSON.stringify] *)

Definition dquote : string := String (ascii_of_nat 34) EmptyString.
Definition backslash : string := String (ascii_of_nat 92) EmptyString.

Definition hex_digit (n : nat) : string :=
  String (ascii_of_nat (if (n <? 10)%nat then 48 + n else 87 + n)) EmptyString.

(** One code unit of a quoted JSON string (QuoteJSONString). *)
Definition quote_char (c : ascii) : string :=
  let n := nat_of_ascii c in
  if (n =? 8)%nat then backslash ++ "b"
  else if (n =? 9)%nat then backslash ++ "t"
  else if (n =? 10)%nat then backslash ++ "n"
  else if (n =? 12)%nat then backslash ++ "f"
  else if (n =? 13)%nat then backslash ++ "r"
  else if (n =? 34)%nat then backslash ++ dquote
  else if (n =? 92)%nat then backslash ++ backslash
  else if (n <? 32)%nat then
    backslash ++ "u00" ++ hex_digit (n / 16) ++ hex_digit (n mod 16)
  else String c EmptyString.

Fixpoint quote_body (s : string) : string :=
  match s with
  | EmptyString => ""
  | String c rest => quote_char c ++ quote_body rest
  end.

Definition JSON_quote (s : string) : string := dquote ++ quote_body s ++ dquote.

(** [JSON.stringify(v)]; [None] is the [undefined] it returns for
    [undefined].  A property whose value is [undefined] is left out of an
    object, and an [undefined] array element is written [null]. *)
Fixpoint JSON_stringify (v : jsval) : option string :=
  match v with
  | JUndefined => None
  | JNull => Some "null"
  | JBool true => Some "true"
  | JBool false => Some "false"
  | JNum n => Some (num_to_string n)
  | JStr s => Some (JSON_quote s)
  | JArr elems =>
      Some ("[" ++
        join ","
          ((fix elems_json (l : list jsval) : list string :=
              match l with
              | [] => []
              | x :: l' =>
                  match JSON_stringify x with
                  | Some t => t
                  | None => "null"
                  end :: elems_json l'
              end) elems)
        ++ "]")
  | JObj fields =>
      Some ("{" ++
        join ","
          ((fix fields_json (l : list (string * jsval)) : list string :=
              match l with
              | [] => []
              | (k, x) :: l' =>
                  match JSON_stringify x with
                  | Some t => (JSON_quote k ++ ":" ++ t) :: fields_json l'
                  | None => fields_json l'
                  end
              end) fields)
        ++ "}")
  end.

End Js.

(* ===================================================================== *)
(** ** Effects: asynchronous methods as state-and-exception computations *)
(* ===================================================================== *)

Module Eff.
Import Js.

(** A thrown value; the service only ever inspects errors to log them. *)
Inductive exn : Type := JsError (message : string).

Inductive result (A : Type) : Type :=
| Ok (a : A)
| Throw (e : exn).
Arguments Ok {A} a.
Arguments Throw {A} e.

Inductive console_level : Type := LogLevel | ErrorLevel.

(** What a run leaves behind, oldest first: the commands sent to the
    cache engine, the statements sent to the store, the console lines. *)
Inductive event : Type :=
| EvRedis (command : list string)
| EvQuery (text : string) (params : list jsval)
| EvConsole (level : console_level) (line : string) (detail : option exn).

(** The process state: the cache engine behind the [ioredis] client, the
    store behind the [pg] pool, and the log.  One request runs at a time:
    an [await] is a sequencing point and no other request interleaves. *)
Record world (R P : Type) : Type := World {
  redis : R;
  pg : P;
  log : list event
}.
Arguments World {R P} redis pg log.
Arguments redis {R P} w.
Arguments pg {R P} w.
Arguments log {R P} w.

Definition M (R P A : Type) : Type := world R P -> result A * world R P.

Definition ret {R P A} (a : A) : M R P A := fun w => (Ok a, w).

Definition bind {R P A B} (m : M R P A) (k : A -> M R P B) : M R P B :=
  fun w =>
    match m w with
    | (Ok a, w') => k a w'
    | (Throw e, w') => (Throw e, w')
    end.

Definition throw {R P A} (e : exn) : M R P A := fun w => (Throw e, w).

(** [try { body } catch (error) { handler }] *)
Definition try_catch {R P A} (body : M R P A) (handler : exn -> M R P A)
  : M R P A :=
  fun w =>
    match body w with
    | (Ok a, w') => (Ok a, w')
    | (Throw e, w') => handler e w'
    end.

Definition lift_result {R P A} (r : result A) : M R P A := fun w => (r, w).

Definition emit {R P} (ev : event) : M R P unit :=
  fun w => (Ok tt, World (redis w) (pg w) (log w ++ [ev])).

Definition console_error {R P} (line : string) (error : exn) : M R P unit :=
  emit (EvConsole ErrorLevel line (Some error)).

Definition console_log {R P} (line : string) : M R P unit :=
  emit (EvConsole LogLevel line None).

(** The [ioredis] client, as far as [CacheService] calls it.  Any command
    may fail, and a failed command may or may not have changed the
    keyspace.  [redis_set key value ttl] is [set(key, value, "EX", ttl)];
    its value is what [JSON.stringify] returned, [None] for [undefined]. *)
Class RedisClient (R : Type) : Type := {
  redis_get : string -> R -> result (option string) * R;
  redis_set : string -> option string -> Z -> R -> result unit * R;
  redis_del : string -> R -> result Z * R;
  redis_flushdb : R -> result unit * R;
  redis_dbsize : R -> result Z * R;
  redis_exists : string -> R -> result Z * R
}.

(** The [pg] pool: [pool.query(text, params)] and the [rows] of its
    outcome. *)
Class PgPool (P : Type) : Type := {
  pool_query : string -> list jsval -> P -> result (list jsval) * P
}.

(** The built-in [JSON.parse]. *)
Class JsonParser : Type := {
  JSON_parse : string -> result jsval
}.

(** A client call: the engine runs the command, and the command is
    logged. *)
Definition on_redis {R P A} (command : list string)
    (run : R -> result A * R) : M R P A :=
  fun w =>
    let (r, redis') := run (redis w) in
    (r, World redis' (pg w) (log w ++ [EvRedis command])).

Definition on_pool {R P} {PP : PgPool P} (text : string) (params : list jsval)
  : M R P (list jsval) :=
  fun w =>
    let (r, pg') := pool_query text params (pg w) in
    (r, World (redis w) pg' (log w ++ [EvQuery text params])).

Declare Scope eff_scope.
Delimit Scope eff_scope with eff.
Notation "x <- m ;; k" := (bind m (fun x => k))
  (at level 100, m at next level, right associativity) : eff_scope.
Notation "m ;;; k" := (bind m (fun _ => k))
  (at level 100, right associativity) : eff_scope.

End Eff.

(* ===================================================================== *)
(** ** The service *)
(* ===================================================================== *)

Module Service.
Import Js Eff.
Local Open Scope eff_scope.

Section Classes.

Context {R P : Type} {RC : RedisClient R} {PP : PgPool P} {JP : JsonParser}.

Local Abbreviation M := (Eff.M R P).

(** *** [CacheService] (the [cache] module, second unit of db/index.ts) *)

Definition quoted (s : string) : string := dquote ++ s ++ dquote.

(** [get(key)]: [value ? JSON.parse(value) : null], any failure logged and
    turned into [null]. *)
Definition cache_get (key : string) : M jsval :=
  try_catch
    (value <- on_redis ["GET"; key] (redis_get key) ;;
     match value with
     | Some text =>
         if negb (String.eqb text "") then lift_result (JSON_parse text)
         else ret JNull
     | None => ret JNull
     end)
    (fun error =>
       console_error ("Failed to get value for key " ++ quoted key) error ;;;
       ret JNull).

(** [put(key, value, ttl = 3600)] *)
Definition cache_put_ttl (key : string) (value : jsval) (ttl : Z) : M unit :=
  try_catch
    (on_redis ["SET"; key; "EX"; num_to_string ttl]
       (redis_set key (JSON_stringify value) ttl))
    (fun error =>
       console_error ("Failed to set value for key " ++ quoted key) error).

Definition cache_put (key : string) (value : jsval) : M unit :=
  cache_put_ttl key value 3600.

(** [delete(key)] *)
Definition cache_delete (key : string) : M unit :=
  try_catch
    (on_redis ["DEL"; key] (redis_del key) ;;; ret tt)
    (fun error => console_error ("Failed to delete key " ++ quoted key) error).

(** [clear()] *)
Definition cache_clear : M unit :=
  try_catch
    (on_redis ["FLUSHDB"] redis_flushdb)
    (fun error => console_error "Failed to clear cache" error).

(** [size()] *)
Definition cache_size : M Z :=
  try_catch
    (on_redis ["DBSIZE"] redis_dbsize)
    (fun error =>
       console_error "Failed to retrieve cache size" error ;;; ret 0).

(** [exists(key)] *)
Definition cache_exists (key : string) : M bool :=
  try_catch
    (result <- on_redis ["EXISTS"; key] (redis_exists key) ;;
     ret (0 <? result))
    (fun error =>
       console_error ("Failed to check existence of key " ++ quoted key) error ;;;
       ret false).

(** [invalidate(key)]: [delete] and an audit line. *)
Definition cache_invalidate (key : string) : M unit :=
  try_catch
    (cache_delete key ;;;
     console_log ("Cache invalidated for key " ++ quoted key))
    (fun error =>
       console_error ("Failed to invalidate cache for key " ++ quoted key) error).

(** *** [DBService] (db/index.ts) *)

(** [query(queryText, params)]: the rows, or the error logged and
    rethrown. *)
Definition db_query (queryText : string) (params : list jsval)
  : M (list jsval) :=
  try_catch
    (on_pool queryText params)
    (fun error =>
       console_error "[DBService] Error executing query:" error ;;;
       throw error).

(** [getOne(queryText, params)]: [rows.length ? rows[0] : null] *)
Definition db_getOne (queryText : string) (params : list jsval) : M jsval :=
  rows <- db_query queryText params ;;
  ret match rows with
      | [] => JNull
      | row :: _ => row
      end.

(** *** [DBRepository] (repo/index.ts) *)

(** [Object.keys] and [Object.values] of a payload.  An array has its
    indices as keys, a string its code-unit indices, a number or boolean
    none; [null] and [undefined] raise a TypeError. *)
Definition indices (n : nat) : list string := map nat_to_string (seq 0 n).

Fixpoint code_units (s : string) : list jsval :=
  match s with
  | EmptyString => []
  | String c rest => JStr (String c EmptyString) :: code_units rest
  end.

Definition Object_keys (data : jsval) : result (list string) :=
  match data with
  | JObj fields => Ok (map fst fields)
  | JArr elems => Ok (indices (List.length elems))
  | JStr s => Ok (indices (String.length s))
  | JNum _ | JBool _ => Ok []
  | JNull | JUndefined =>
      Throw (JsError "Cannot convert undefined or null to object")
  end.

Definition Object_values (data : jsval) : result (list jsval) :=
  match data with
  | JObj fields => Ok (map snd fields)
  | JArr elems => Ok elems
  | JStr s => Ok (code_units s)
  | JNum _ | JBool _ => Ok []
  | JNull | JUndefined =>
      Throw (JsError "Cannot convert undefined or null to object")
  end.

(** [values.map((_, index) => `$${index + 1}`)] *)
Definition placeholder_list (n : nat) : list string :=
  map (fun index => "$" ++ nat_to_string (index + 1)) (seq 0 n).

(** [keys.map((key, index) => `${key} = $${index + 1}`)] *)
Fixpoint assignments_from (index : nat) (keys : list string) : list string :=
  match keys with
  | [] => []
  | key :: rest =>
      (key ++ " = $" ++ nat_to_string (index + 1))
        :: assignments_from (S index) rest
  end.

Definition select_page_text (tableName : string) : string :=
  "SELECT * FROM " ++ tableName ++ " LIMIT $1 OFFSET $2".

Definition select_by_id_text (tableName : string) : string :=
  "SELECT * FROM " ++ tableName ++ " WHERE id = $1".

Definition select_by_route_no_text (tableName : string) : string :=
  "SELECT * FROM " ++ tableName ++ " WHERE route_no = $1".

Definition insert_text (tableName : string) (keys : list string) (n : nat)
  : string :=
  "INSERT INTO " ++ tableName ++ " (" ++ join ", " keys ++ ") VALUES ("
    ++ join ", " (placeholder_list n) ++ ") RETURNING *".

Definition update_text (tableName : string) (keys : list string) : string :=
  "UPDATE " ++ tableName ++ " SET " ++ join ", " (assignments_from 0 keys)
    ++ " WHERE id = $" ++ nat_to_string (List.length keys + 1)
    ++ " RETURNING *".

Definition delete_text (tableName : string) : string :=
  "DELETE FROM " ++ tableName ++ " WHERE id = $1".


(** [getById(id)] *)
Definition repo_getById (tableName : string) (id : jsval) : M jsval :=
  db_getOne (select_by_id_text tableName) [id].

(** [getByRouteNo(route_no)] *)
Definition repo_getByRouteNo (tableName : string) (route_no : jsval)
  : M jsval :=
  db_getOne (select_by_route_no_text tableName) [route_no].

(** [create(data)]: [result[0]], which is [undefined] on no rows. *)
Definition repo_create (tableName : string) (data : jsval) : M jsval :=
  keys <- lift_result (Object_keys data) ;;
  values <- lift_result (Object_values data) ;;
  result <- db_query (insert_text tableName keys (List.length values)) values ;;
  ret match result with
      | [] => JUndefined
      | row :: _ => row
      end.

(** [update(id, data)]: [result[0] || null] *)
Definition repo_update (tableName : string) (id : jsval) (data : jsval)
  : M jsval :=
  keys <- lift_result (Object_keys data) ;;
  values <- lift_result (Object_values data) ;;
  result <- db_query (update_text tableName keys) (values ++ [id]) ;;
  ret match result with
      | [] => JNull
      | row :: _ => if truthy row then row else JNull
      end.

(** Reading a property of a row. *)
Fixpoint field (name : string) (fields : list (string * jsval)) : jsval :=
  match fields with
  | [] => JUndefined
  | (k, v) :: rest => if String.eqb k name then v else field name rest
  end.

Definition get_prop (v : jsval) (name : string) : result jsval :=
  match v with
  | JObj fields => Ok (field name fields)
  | JNull | JUndefined =>
      Throw (JsError "Cannot read properties of undefined")
  | _ => Ok JUndefined
  end.

(** [v > 0] on a value declared [number]: a number compares, a boolean
    counts as 0 or 1, and [undefined] (NaN) and [null] (0) compare false.
    Strings, arrays and objects, which JavaScript would first convert to
    a number, are outside the declared type of the field and compare
    false here. *)
Definition gt_zero (v : jsval) : bool :=
  match v with
  | JNum n => 0 <? n
  | JBool b => b
  | _ => false
  end.

(** [delete(id)]:
    [result.length > 0 && result[0].affectedRows > 0] *)
Definition repo_delete (tableName : string) (id : jsval) : M bool :=
  result <- db_query (delete_text tableName) [id] ;;
  match result with
  | [] => ret false
  | row :: _ =>
      affected <- lift_result (get_prop row "affectedRows") ;;
      ret (gt_zero affected)
  end.

(** *** [ApiController] (api/app.controller.ts, unnamed/part_001) *)

(** [AppConfig.BUS_DATA_TABLE] *)
Definition BUS_DATA_TABLE : string := "bus_routes".

(** An Express request: the parsed query string (a value is a string, an
    array or a nested object), the route parameters, the parsed body. *)
Record request : Type := Request {
  req_query : list (string * jsval);
  req_params : list (string * jsval);
  req_body : jsval
}.

(** The envelope passed to [res.status(..).json(..)]. *)
Record response : Type := Response {
  status : Z;
  success : bool;
  message : string;
  data : jsval
}.

(** How a handler ends: a response was sent, or the error went to
    [next]. *)
Inductive outcome : Type :=
| Sent (r : response)
| Next (error : exn).

(** [try { ... } catch (error) { next(error) }] around a handler body,
    every path of which sends one response. *)
Definition handler (body : M response) (w : world R P) : outcome * world R P :=
  match body w with
  | (Ok r, w') => (Sent r, w')
  | (Throw e, w') => (Next e, w')
  end.

(** [JSON.stringify] of an object literal, which always yields text. *)
Definition stringified (fields : list (string * jsval)) : string :=
  match JSON_stringify (JObj fields) with
  | Some text => text
  | None => ""
  end.

(** The local [busDetails] of [fetchBusDetails]: declared and left
    [undefined], or assigned the promise of a repository call that has not
    been awaited. *)
Inductive pending : Type :=
| Unassigned
| Promise (p : M jsval).

(** A promise is an object, hence truthy. *)
Definition truthy_pending (b : pending) : bool :=
  match b with
  | Unassigned => false
  | Promise _ => true
  end.

(** Resolution of the value an [async] function returns. *)
Definition settle (b : pending) : M jsval :=
  match b with
  | Unassigned => ret JUndefined
  | Promise p => p
  end.

(** [fetchBusDetails(query)].  The repository calls are not awaited
    inside the [try]: [busDetails] is tested as a promise, and the promise
    is settled by the [return], outside the reach of the [catch]. *)
Definition fetchBusDetails (query : list (string * jsval)) : M jsval :=
  returned <-
    try_catch
      (let busDetails :=
         if truthy (field "id" query) then
           Promise (repo_getById BUS_DATA_TABLE (field "id" query))
         else if truthy (field "route_number" query) then
           Promise (repo_getByRouteNo BUS_DATA_TABLE (field "route_number" query))
         else Unassigned in
       if negb (truthy_pending busDetails) then
         throw (JsError "Bus details not found")
       else ret busDetails)
      (fun error =>
         console_error "Failed to fetch bus details from database:" error ;;;
         throw error) ;;
  settle returned.

(** The [query] object of [getBusDetails]. *)
Definition read_query (id route_number : jsval) : list (string * jsval) :=
  if truthy id then [("id", JStr (ToString id))]
  else [("route_number", JStr (ToString route_number))].

(** [getBusDetails(req, res, next)] *)
Definition getBusDetails (req : request) : world R P -> outcome * world R P :=
  handler
    (let id := field "id" (req_query req) in
     let route_number := field "route_number" (req_query req) in
     if negb (truthy id) && negb (truthy route_number) then
       ret (Response 400 false "Either Bus ID or Route Number is required" JNull)
     else
       let query := read_query id route_number in
       cachedBusDetails <- cache_get (stringified query) ;;
       if truthy cachedBusDetails then
         ret (Response 200 true "Bus details retrieved from cache"
                cachedBusDetails)
       else
         busDetails <- fetchBusDetails query ;;
         cache_put (stringified query) busDetails ;;;
         ret (Response 200 true "Bus details retrieved successfully"
                busDetails)).

(** [updateBusDetails(req, res, next)] *)
Definition updateBusDetails (req : request)
  : world R P -> outcome * world R P :=
  handler
    (let id := field "id" (req_params req) in
     let busDetails := req_body req in
     if negb (truthy id) || negb (truthy busDetails) then
       ret (Response 400 false "Bus ID and new data are required" JNull)
     else
       updatedBus <- repo_update BUS_DATA_TABLE id busDetails ;;
       if negb (truthy updatedBus) then
         ret (Response 404 false "Bus details not found" JNull)
       else
         let query := [("id", JStr (ToString id))] in
         cache_invalidate (stringified query) ;;;
         ret (Response 200 true "Bus details updated successfully" updatedBus)).

(** [deleteBusDetails(req, res, next)] *)
Definition deleteBusDetails (req : request)
  : world R P -> outcome * world R P :=
  handler
    (let id := field "id" (req_params req) in
     if negb (truthy id) then
       ret (Response 400 false "Bus ID is required" JNull)
     else
       deletedBus <- repo_delete BUS_DATA_TABLE id ;;
       if negb deletedBus then
         ret (Response 404 false "Bus details not found" JNull)
       else
         let query := [("id", JStr (ToString id))] in
         cache_invalidate (stringified query) ;;;
         ret (Response 200 true "Bus details deleted successfully"
                (JBool deletedBus))).

End Classes.

End Service.

(* ===================================================================== *)
(** ** Reference engines *)
(* ===================================================================== *)

Module Ref.
Import Js Eff Service.

(** The engines behind the two clients are not part of the repository.
    The models below keep what the service relies on, and are used to
    evaluate requests and wherever a property depends on what an engine
    answers. *)

(** *** A Redis keyspace *)

(** Each live key holds its text and the expiry, in seconds, it was set
    with.  The passing of time and eviction are not part of a run. *)
Abbreviation keyspace := (gmap string (string * Z)).

Inductive command : Type := GET | SET | DEL | FLUSHDB | DBSIZE | EXISTS.

Definition connection_closed : exn := JsError "Connection is closed.".

(** A client whose commands in [down] fail without touching the keyspace
    and whose other commands behave as Redis does: GET answers the text
    under the key or nil, SET with EX overwrites the key, DEL removes it
    and counts what it removed, EXISTS and DBSIZE count, FLUSHDB empties
    the keyspace.  The client writes an [undefined] argument as the empty
    string. *)
Definition redis_client (down : command -> bool) : RedisClient keyspace := {|
  redis_get key m :=
    if down GET then (Throw connection_closed, m)
    else (Ok (fst <$> m !! key), m);
  redis_set key value ttl m :=
    if down SET then (Throw connection_closed, m)
    else if ttl <=? 0 then
      (Throw (JsError "ERR invalid expire time in 'set' command"), m)
    else (Ok tt, <[key := (default "" value, ttl)]> m);
  redis_del key m :=
    if down DEL then (Throw connection_closed, m)
    else (Ok (match m !! key with Some _ => 1 | None => 0 end), delete key m);
  redis_flushdb m :=
    if down FLUSHDB then (Throw connection_closed, m) else (Ok tt, ∅);
  redis_dbsize m :=
    if down DBSIZE then (Throw connection_closed, m)
    else (Ok (Z.of_nat (size m)), m);
  redis_exists key m :=
    if down EXISTS then (Throw connection_closed, m)
    else (Ok (match m !! key with Some _ => 1 | None => 0 end), m)
|}.

(** The engine in good health, and the engine unreachable. *)
Definition redis_up : RedisClient keyspace := redis_client (fun _ => false).
Definition redis_down : RedisClient keyspace := redis_client (fun _ => true).

(** *** [JSON.parse] on a known set of documents *)

(** The decoder of the texts that [JSON.stringify] produces for the
    values of [universe]; any other text is a syntax error. *)
Fixpoint decode (universe : list jsval) (text : string) : result jsval :=
  match universe with
  | [] => Throw (JsError "Unexpected token in JSON")
  | v :: rest =>
      match JSON_stringify v with
      | Some t => if String.eqb t text then Ok v else decode rest text
      | None => decode rest text
      end
  end.

Definition parser_of (universe : list jsval) : JsonParser :=
  {| JSON_parse := decode universe |}.

(** *** A one-table relational store *)

(** The table with its column names and its rows in physical order.  A
    statement without ORDER BY enumerates the rows in that order. *)
Record table : Type := Table {
  table_name : string;
  columns : list string;
  rows : list jsval
}.

Definition column (name : string) (row : jsval) : jsval :=
  match row with
  | JObj fields => field name fields
  | _ => JUndefined
  end.

(** [column = $n]: both sides compared through their text, NULL equal to
    nothing. *)
Definition sql_equal (v param : jsval) : bool :=
  match v, param with
  | (JUndefined | JNull), _ => false
  | _, (JUndefined | JNull) => false
  | _, _ => String.eqb (ToString v) (ToString param)
  end.

Fixpoint set_field (name : string) (v : jsval) (fields : list (string * jsval))
  : list (string * jsval) :=
  match fields with
  | [] => [(name, v)]
  | (k, x) :: rest =>
      if String.eqb k name then (k, v) :: rest
      else (k, x) :: set_field name v rest
  end.

Fixpoint assign (cols : list string) (values : list jsval) (row : jsval)
  : jsval :=
  match cols, values, row with
  | c :: cols', v :: values', JObj fields =>
      assign cols' values' (JObj (set_field c v fields))
  | _, _, _ => row
  end.

Fixpoint strip_prefix (p s : string) : option string :=
  match p, s with
  | EmptyString, _ => Some s
  | String a p', String b s' =>
      if Ascii.eqb a b then strip_prefix p' s' else None
  | String _ _, EmptyString => None
  end.

(** The column of the schema assigned [$index] at the head of [s]. *)
Fixpoint match_column (cols : list string) (index : nat) (s : string)
  : option (string * string) :=
  match cols with
  | [] => None
  | c :: rest =>
      match strip_prefix (c ++ " = $" ++ nat_to_string index) s with
      | Some s' => Some (c, s')
      | None => match_column rest index s
      end
  end.

(** [n] assignments [c = $index, ...] to columns of the schema; an empty
    SET list is a syntax error. *)
Fixpoint parse_assignments (cols : list string) (index n : nat) (s : string)
  : option (list string * string) :=
  match n with
  | O => None
  | S n' =>
      match match_column cols index s with
      | None => None
      | Some (c, s') =>
          match n' with
          | O => Some ([c], s')
          | S _ =>
              match strip_prefix ", " s' with
              | None => None
              | Some s'' =>
                  match parse_assignments cols (S index) n' s'' with
                  | Some (cs, tail) => Some (c :: cs, tail)
                  | None => None
                  end
              end
          end
      end
  end.

(** The columns assigned by
    [UPDATE <table> SET c1 = $1, ..., cn = $n WHERE id = $n+1 RETURNING *]. *)
Definition parse_update (t : table) (n : nat) (text : string)
  : option (list string) :=
  match strip_prefix ("UPDATE " ++ table_name t ++ " SET ") text with
  | None => None
  | Some s =>
      match parse_assignments (columns t) 1 n s with
      | None => None
      | Some (cs, tail) =>
          if String.eqb tail
               (" WHERE id = $" ++ nat_to_string (n + 1) ++ " RETURNING *")
          then Some cs else None
      end
  end.

Definition row_count (v : jsval) : option nat :=
  match v with
  | JNum n => if 0 <=? n then Some (Z.to_nat n) else None
  | _ => None
  end.

Definition with_rows (t : table) (rows' : list jsval) : table :=
  Table (table_name t) (columns t) rows'.

(** What the store raises for a statement it cannot run: a syntax error
    such as an empty SET list, or a column the table does not have. *)
Definition rejected_statement : exn := JsError "statement rejected by the store".

(** The statements of [DBRepository] on the table, as PostgreSQL runs
    them through [pool.query]: the outcome's [rows] and the table
    afterwards.  The two SELECT by key and the DELETE compare the column
    with the parameter; the paged SELECT takes [limit] rows from [offset]
    on; the UPDATE assigns the parameters to the named columns of the rows
    with the given id and returns those rows.  A DELETE without RETURNING
    yields no rows, whatever it removed.  INSERT is not interpreted. *)
Definition run_statement (text : string) (params : list jsval) (t : table)
  : result (list jsval) * table :=
  let name := table_name t in
  if String.eqb text (select_page_text name) then
    match params with
    | [limit; offset] =>
        match row_count limit, row_count offset with
        | Some l, Some o => (Ok (firstn l (skipn o (rows t))), t)
        | _, _ => (Throw (JsError "LIMIT and OFFSET must be non-negative integers"), t)
        end
    | _ => (Throw (JsError "bind message supplies the wrong number of parameters"), t)
    end
  else if String.eqb text (select_by_id_text name) then
    match params with
    | [v] => (Ok (List.filter (fun r => sql_equal (column "id" r) v) (rows t)), t)
    | _ => (Throw (JsError "bind message supplies the wrong number of parameters"), t)
    end
  else if String.eqb text (select_by_route_no_text name) then
    match params with
    | [v] =>
        (Ok (List.filter (fun r => sql_equal (column "route_no" r) v) (rows t)), t)
    | _ => (Throw (JsError "bind message supplies the wrong number of parameters"), t)
    end
  else if String.eqb text (delete_text name) then
    match params with
    | [v] =>
        (Ok [],
         with_rows t
           (List.filter (fun r => negb (sql_equal (column "id" r) v)) (rows t)))
    | _ => (Throw (JsError "bind message supplies the wrong number of parameters"), t)
    end
  else
    match parse_update t (List.length params - 1) text with
    | Some cols =>
        let id := List.last params JUndefined in
        let hit r := sql_equal (column "id" r) id in
        (Ok (map (assign cols params) (List.filter hit (rows t))),
         with_rows t
           (map (fun r => if hit r then assign cols params r else r) (rows t)))
    | None => (Throw rejected_statement, t)
    end.

Definition pg_pool : PgPool table := {| pool_query := run_statement |}.

End Ref.

(* ===================================================================== *)
(** ** Notions used in the statements *)
(* ===================================================================== *)

Module Notions.
Import Js Eff Service Ref.

(** *** Outcomes *)

(** A computation completes when it returns to its caller instead of
    raising. *)
Definition completes {R P A} (m : M R P A) (w : world R P) : Prop :=
  exists a w', m w = (Ok a, w').

(** The envelopes the handlers send. *)
Definition bad_read : response :=
  Response 400 false "Either Bus ID or Route Number is required" JNull.

Definition from_cache (v : jsval) : response :=
  Response 200 true "Bus details retrieved from cache" v.

Definition from_store (v : jsval) : response :=
  Response 200 true "Bus details retrieved successfully" v.

Definition bad_update : response :=
  Response 400 false "Bus ID and new data are required" JNull.

Definition updated (row : jsval) : response :=
  Response 200 true "Bus details updated successfully" row.

Definition bad_delete : response :=
  Response 400 false "Bus ID is required" JNull.

Definition deleted : response :=
  Response 200 true "Bus details deleted successfully" (JBool true).

Definition not_found : response :=
  Response 404 false "Bus details not found" JNull.

(** The error of [fetchBusDetails]. *)
Definition no_bus : exn := JsError "Bus details not found".

(** [rows.length ? rows[0] : null] *)
Definition first_row (rows : list jsval) : jsval :=
  match rows with
  | [] => JNull
  | row :: _ => row
  end.

(** *** The log *)

(** A [console.error] line and the audit line of [invalidate]. *)
Definition error_line (line : string) (e : exn) : event :=
  EvConsole ErrorLevel line (Some e).

Definition audit_line (key : string) : event :=
  EvConsole LogLevel ("Cache invalidated for key " ++ quoted key) None.

(** Events that are console lines only: no command, no statement. *)
Definition console_only (events : list event) : Prop :=
  forall ev, In ev events -> exists level line detail, ev = EvConsole level line detail.

(** Every command among the events is [command]; no command at all. *)
Definition only_command (command : list string) (events : list event) : Prop :=
  forall c, In (EvRedis c) events -> c = command.

Definition no_command (events : list event) : Prop :=
  forall c, In (EvRedis c) events -> False.

(** Every statement among the events is [statement]; none when it is
    [None]. *)
Definition only_query (statement : option (string * list jsval))
    (events : list event) : Prop :=
  forall text params,
    In (EvQuery text params) events -> statement = Some (text, params).

(** The lookup [fetchBusDetails] makes for a query: the statement and its
    parameter. *)
Definition lookup_statement (query : list (string * jsval))
  : option (string * list jsval) :=
  if truthy (field "id" query) then
    Some (select_by_id_text BUS_DATA_TABLE, [field "id" query])
  else if truthy (field "route_number" query) then
    Some (select_by_route_no_text BUS_DATA_TABLE, [field "route_number" query])
  else None.

(** *** Keys and selectors *)

(** The key both paths build for an identifier:
    [JSON.stringify({ id: String(id) })]. *)
Definition id_key (id : jsval) : string :=
  stringified [("id", JStr (ToString id))].

(** [JSON.stringify({ route_number: String(route_number) })] *)
Definition route_number_key (route_number : jsval) : string :=
  stringified [("route_number", JStr (ToString route_number))].

(** What a request selects: a record by identifier or by route number,
    after [String(..)]. *)
Inductive selector : Type :=
| ById (id : string)
| ByRouteNumber (route_number : string).

(** The selector of a read ([req.query]) and of an update or delete
    ([req.params]); [None] when the handler answers 400. *)
Definition read_selector (req : request) : option selector :=
  let id := field "id" (req_query req) in
  let route_number := field "route_number" (req_query req) in
  if truthy id then Some (ById (ToString id))
  else if truthy route_number then Some (ByRouteNumber (ToString route_number))
  else None.

Definition write_selector (req : request) : option selector :=
  let id := field "id" (req_params req) in
  if truthy id then Some (ById (ToString id)) else None.

(** The CacheKey of a selector. *)
Definition CacheKey (s : selector) : string :=
  match s with
  | ById id => stringified [("id", JStr id)]
  | ByRouteNumber route_number => stringified [("route_number", JStr route_number)]
  end.

(** *** Statement text *)

(** [part] occurs in [whole] as it is. *)
Definition occurs (part whole : string) : Prop :=
  exists before after, whole = before ++ part ++ after.

(** *** A failing engine *)

(** An engine that serves reads and writes but refuses DEL. *)
Definition del_refusing (c : command) : bool :=
  match c with
  | DEL => true
  | _ => false
  end.

End Notions.

(* ===================================================================== *)
(** ** The scenario of the specification *)
(* ===================================================================== *)

Module Scenario.
Import Js Eff Service Ref Notions.

(** Two routes, [{id: 1, route_no: "A1"}] and [{id: 2, route_no: "B2"}]. *)
Definition route_A1 : jsval := JObj [("id", JNum 1); ("route_no", JStr "A1")].
Definition route_B2 : jsval := JObj [("id", JNum 2); ("route_no", JStr "B2")].
Definition route_A2 : jsval := JObj [("id", JNum 1); ("route_no", JStr "A2")].

Definition bus_routes : table :=
  Table BUS_DATA_TABLE ["id"; "route_no"] [route_A1; route_B2].

Definition parser : JsonParser :=
  parser_of [route_A1; route_B2; route_A2; JNull].

(** The service at start: an empty cache in front of the two routes. *)
Definition start : world keyspace table := World ∅ bus_routes [].

(** [GET /v1/bus/details?<query>] *)
Definition GET (query : list (string * jsval)) : request :=
  Request query [] JUndefined.

(** [PUT /v1/bus/<id>] with a JSON body *)
Definition PUT (id : string) (body : jsval) : request :=
  Request [] [("id", JStr id)] body.

(** [DELETE /v1/bus/<id>] *)
Definition DELETE (id : string) : request :=
  Request [] [("id", JStr id)] JUndefined.

(** The state reached after a handler has run. *)
Definition after {R P} (run : world R P -> outcome * world R P) (w : world R P)
  : world R P := snd (run w).

End Scenario.

(* ===================================================================== *)
(** ** Configuration and singletons *)
(* ===================================================================== *)

Module Startup.
Import Js Eff Service.
Local Open Scope eff_scope.

(** *** [AppConfig] (api/app.config.ts) *)

(** [process.env] once [dotenv.config()] has run: a variable is a string
    or is not set. *)
Abbreviation environment := (gmap string string).

(** [process.env.NAME || fallback] on strings: an unset or empty variable
    gives the fallback. *)
Definition env_or (env : environment) (name fallback : string) : string :=
  match env !! name with
  | Some value => if String.eqb value "" then fallback else value
  | None => fallback
  end.

(** [getDBUrl()] *)
Definition getDBUrl (env : environment) : result string :=
  match env !! "NEON_DB_URL" with
  | Some dbUrl =>
      if String.eqb dbUrl "" then
        Throw (JsError "NEON_DB_URL is not defined in the environment variables.")
      else Ok dbUrl
  | None =>
      Throw (JsError "NEON_DB_URL is not defined in the environment variables.")
  end.

(** [getLruConfig()]: the entries of the object, in the order
    [Object.entries] enumerates them. *)
Definition getLruConfig (env : environment) : list (string * string) :=
  [("maxmemory", env_or env "MAX_LRU_SIZE" "10" ++ "mb");
   ("maxmemory-policy", "allkeys-lru")].

(** *** [CacheService.configureLruPolicy] (db/index.ts, second unit) *)

(** [redis.config("SET", key, value)] and its reply. *)
Class RedisAdmin (R : Type) : Type := {
  redis_config_set : string -> string -> R -> result string * R
}.

(** [for (const item of items) { await body(item) }] *)
Fixpoint for_each {R P A} (items : list A) (body : A -> M R P unit) : M R P unit :=
  match items with
  | [] => ret tt
  | item :: rest => body item ;;; for_each rest body
  end.

(** [configureLruPolicy()].  The second argument of the [console.log],
    the configuration object, is not recorded in the log. *)
Definition configureLruPolicy {R P} {RA : RedisAdmin R} (env : environment)
  : M R P unit :=
  try_catch
    (let lruConfig := getLruConfig env in
     for_each lruConfig
       (fun entry =>
          on_redis ["CONFIG"; "SET"; fst entry; snd entry]
            (redis_config_set (fst entry) (snd entry)) ;;;
          ret tt) ;;;
     console_log "Redis LRU policy configured:")
    (fun error => console_error "Failed to configure Redis LRU policy:" error).

(** *** [DBService.getInstance] (db/index.ts) *)

(** The options the constructor gives [new Pool(..)]. *)
Record pool_options : Type := PoolOptions {
  connectionString : string;
  rejectUnauthorized : bool
}.

(** [new DBService()]: the pool is built from [getDBUrl()], whose error
    leaves the constructor. *)
Definition new_DBService (env : environment) : result pool_options :=
  match getDBUrl env with
  | Ok dbUrl => Ok (PoolOptions dbUrl false)
  | Throw e => Throw e
  end.

(** [DBService.getInstance()] on the static [instance]. *)
Definition DBService_getInstance (env : environment)
    (instance : option pool_options)
  : result pool_options * option pool_options :=
  match instance with
  | Some service => (Ok service, instance)
  | None =>
      match new_DBService env with
      | Ok service => (Ok service, Some service)
      | Throw e => (Throw e, None)
      end
  end.

(** *** [DBRepository.getInstance] (repo/index.ts) *)

(** A repository object: the table it was constructed for, and which
    construction it came from ([created] numbers the [new DBRepository]
    calls, so that two objects are the same object when they agree on
    it). *)
Record repository : Type := Repository {
  created : nat;
  tableName : string
}.

(** The static [instances] map and the number of constructions so far. *)
Record registry : Type := Registry {
  instances : gmap string repository;
  constructions : nat
}.

Definition no_instances : registry := Registry ∅ 0.

(** [DBRepository.getInstance(tableName)]: what [instances.get] returns,
    [None] for [undefined], and the registry afterwards. *)
Definition DBRepository_getInstance (name : string) (reg : registry)
  : option repository * registry :=
  let reg' :=
    match instances reg !! name with
    | Some _ => reg
    | None =>
        Registry (<[name := Repository (constructions reg) name]> (instances reg))
          (S (constructions reg))
    end in
  (instances reg' !! name, reg').

(** The registry after a sequence of [getInstance] calls. *)
Definition requested (names : list string) (reg : registry) : registry :=
  fold_left (fun r name => snd (DBRepository_getInstance name r)) names reg.

(** Every object is filed under the table it was constructed for. *)
Definition filed (reg : registry) : Prop :=
  forall name r, instances reg !! name = Some r -> tableName r = name.

(** The constructor has run once for each object of the registry. *)
Definition counted (reg : registry) : Prop :=
  constructions reg = size (instances reg).

End Startup.

(* ===================================================================== *)
(** ** Engines that fail *)
(* ===================================================================== *)

Module Faults.
Import Js Eff Ref.

Definition connection_refused : exn := JsError "connect ECONNREFUSED".

(** A store that cannot be reached: every statement raises and the table
    is left as it is. *)
Definition pg_unreachable : PgPool table :=
  {| pool_query _ _ t := (Throw connection_refused, t) |}.

End Faults.

(* ===================================================================== *)
(** ** Reading a quoted string back *)
(* ===================================================================== *)

Module Unquote.
Import Js.

Definition hex_value (c : ascii) : option nat :=
  let n := nat_of_ascii c in
  if ((48 <=? n) && (n <=? 57))%nat then Some (n - 48)%nat
  else if ((97 <=? n) && (n <=? 102))%nat then Some (n - 87)%nat
  else None.

(** The code unit at the head of the body of a quoted JSON string, and
    what follows it: the inverse of [quote_char]. *)
Definition unquote_char (s : string) : option (ascii * string) :=
  match s with
  | EmptyString => None
  | String c rest =>
      if (nat_of_ascii c =? 92)%nat then
        match rest with
        | EmptyString => None
        | String e rest' =>
            let k := nat_of_ascii e in
            if (k =? 98)%nat then Some (ascii_of_nat 8, rest')
            else if (k =? 116)%nat then Some (ascii_of_nat 9, rest')
            else if (k =? 110)%nat then Some (ascii_of_nat 10, rest')
            else if (k =? 102)%nat then Some (ascii_of_nat 12, rest')
            else if (k =? 114)%nat then Some (ascii_of_nat 13, rest')
            else if (k =? 34)%nat then Some (ascii_of_nat 34, rest')
            else if (k =? 92)%nat then Some (ascii_of_nat 92, rest')
            else if (k =? 117)%nat then
              match rest' with
              | String _ (String _ (String h1 (String h2 rest''))) =>
                  match hex_value h1, hex_value h2 with
                  | Some a, Some b => Some (ascii_of_nat (16 * a + b), rest'')
                  | _, _ => None
                  end
              | _ => None
              end
            else None
        end
      else Some (c, rest)
  end.

End Unquote.

(* ===================================================================== *)
(** ** Running the cache, the repository and the handlers *)
(* ===================================================================== *)

Module Runs.
Import Js Eff Service Notions.
Local Open Scope eff_scope.

Lemma console_only_no_command events c :
  console_only events -> In (EvRedis c) events -> False.
Proof. intros Hc Hin. destruct (Hc _ Hin) as (? & ? & ? & E). discriminate E. Qed.

Lemma console_only_no_query events text params :
  console_only events -> In (EvQuery text params) events -> False.
Proof. intros Hc Hin. destruct (Hc _ Hin) as (? & ? & ? & E). discriminate E. Qed.

Lemma console_only_app events events' :
  console_only events -> console_only events' -> console_only (events ++ events').
Proof. intros Ha Hb ev Hin. apply in_app_or in Hin as [Hin|Hin]; eauto. Qed.

Ltac console_lines :=
  let ev := fresh "ev" in
  let Hin := fresh "Hin" in
  intros ev Hin; cbn in Hin;
  repeat (destruct Hin as [<-|Hin]; [eexists _, _, _; reflexivity|]);
  destruct Hin.

Ltac unfold_eff :=
  unfold try_catch, bind, ret, throw, lift_result, on_redis, on_pool,
    console_error, console_log, emit in *.

Ltac unfold_cache :=
  unfold cache_get, cache_put, cache_put_ttl, cache_delete, cache_clear,
    cache_size, cache_exists, cache_invalidate in *.

Ltac log_simpl := cbn [log redis pg]; rewrite <- ?app_assoc; cbn [app].

Section Cache.

Context {R P : Type} {RC : RedisClient R} {PP : PgPool P} {JP : JsonParser}.

Implicit Types (w : world R P) (key : string) (value : jsval).

(** [get] *)

Lemma cache_get_failure key w e r' :
  redis_get key (redis w) = (Throw e, r') ->
  cache_get key w =
    (Ok JNull,
     World r' (pg w)
       (log w ++ [EvRedis ["GET"; key];
                  error_line ("Failed to get value for key " ++ quoted key) e])).
Proof.
  intros E. unfold_cache. unfold_eff. rewrite E. log_simpl. reflexivity.
Qed.

Lemma cache_get_absent key w r' :
  redis_get key (redis w) = (Ok None, r') ->
  cache_get key w = (Ok JNull, World r' (pg w) (log w ++ [EvRedis ["GET"; key]])).
Proof.
  intros E. unfold_cache. unfold_eff. rewrite E. reflexivity.
Qed.

Lemma cache_get_present key w text r' v :
  redis_get key (redis w) = (Ok (Some text), r') ->
  text <> "" ->
  JSON_parse text = Ok v ->
  cache_get key w = (Ok v, World r' (pg w) (log w ++ [EvRedis ["GET"; key]])).
Proof.
  intros E Hne Hv. unfold_cache. unfold_eff. rewrite E.
  destruct (String.eqb_spec text ""); [contradiction|]. cbn. rewrite Hv.
  reflexivity.
Qed.

(** Whatever the engine and the parser do, [get] returns a value, leaves
    the store alone, and its first event is the GET of its key. *)
Lemma cache_get_completes key w :
  exists v r' tail,
    cache_get key w =
      (Ok v, World r' (pg w) (log w ++ EvRedis ["GET"; key] :: tail))
    /\ console_only tail.
Proof.
  unfold_cache. unfold_eff.
  destruct (redis_get key (redis w)) as [[[text|]|e] r'].
  - destruct (negb (String.eqb text "")).
    + destruct (JSON_parse text) as [v|e].
      * exists v, r', []. split; [reflexivity | console_lines].
      * exists JNull, r', [error_line ("Failed to get value for key " ++ quoted key) e].
        log_simpl. split; [reflexivity | console_lines].
    + exists JNull, r', []. split; [reflexivity | console_lines].
  - exists JNull, r', []. split; [reflexivity | console_lines].
  - exists JNull, r', [error_line ("Failed to get value for key " ++ quoted key) e].
    log_simpl. split; [reflexivity | console_lines].
Qed.

(** [put] *)

Lemma cache_put_run key value w :
  exists r' tail,
    cache_put key value w =
      (Ok tt,
       World r' (pg w) (log w ++ EvRedis ["SET"; key; "EX"; "3600"] :: tail))
    /\ console_only tail
    /\ (forall e r1, redis_set key (JSON_stringify value) 3600 (redis w) = (Throw e, r1) ->
        r' = r1 /\
        tail = [error_line ("Failed to set value for key " ++ quoted key) e])
    /\ (forall r1, redis_set key (JSON_stringify value) 3600 (redis w) = (Ok tt, r1) ->
        r' = r1 /\ tail = []).
Proof.
  unfold_cache. unfold_eff.
  destruct (redis_set key (JSON_stringify value) 3600 (redis w)) as [[[]|e] r'].
  - exists r', []. split; [reflexivity|]. split; [console_lines|].
    split; intros; split; congruence.
  - exists r', [error_line ("Failed to set value for key " ++ quoted key) e].
    log_simpl. split; [reflexivity|]. split; [console_lines|].
    split; intros; split; congruence.
Qed.

(** [delete] *)

Lemma cache_delete_run key w :
  exists r' tail,
    cache_delete key w =
      (Ok tt, World r' (pg w) (log w ++ EvRedis ["DEL"; key] :: tail))
    /\ console_only tail
    /\ (forall e r1, redis_del key (redis w) = (Throw e, r1) ->
        r' = r1 /\ tail = [error_line ("Failed to delete key " ++ quoted key) e])
    /\ (forall n r1, redis_del key (redis w) = (Ok n, r1) ->
        r' = r1 /\ tail = []).
Proof.
  unfold_cache. unfold_eff.
  destruct (redis_del key (redis w)) as [[n|e] r'].
  - exists r', []. split; [reflexivity|]. split; [console_lines|].
    split; intros; split; congruence.
  - exists r', [error_line ("Failed to delete key " ++ quoted key) e].
    log_simpl. split; [reflexivity|]. split; [console_lines|].
    split; intros; split; congruence.
Qed.

(** [invalidate]: the DEL, the engine's failure if any, the audit line.
    Its own [catch] is never entered, [delete] having absorbed the
    failure. *)
Lemma cache_invalidate_run key w :
  exists r' tail,
    cache_invalidate key w =
      (Ok tt, World r' (pg w) (log w ++ EvRedis ["DEL"; key] :: tail))
    /\ console_only tail
    /\ (forall e r1, redis_del key (redis w) = (Throw e, r1) ->
        r' = r1 /\
        tail = [error_line ("Failed to delete key " ++ quoted key) e;
                audit_line key])
    /\ (forall n r1, redis_del key (redis w) = (Ok n, r1) ->
        r' = r1 /\ tail = [audit_line key]).
Proof.
  destruct (cache_delete_run key w) as (r' & tail & E & Hno & Hfail & Hok).
  exists r', (tail ++ [audit_line key])%list.
  unfold cache_invalidate, try_catch, bind at 1. rewrite E.
  unfold console_log, emit. log_simpl. split; [reflexivity|]. split.
  - apply console_only_app; [exact Hno | console_lines].
  - split.
    + intros e r1 Hdel. destruct (Hfail e r1 Hdel) as [-> ->]. split; reflexivity.
    + intros n r1 Hdel. destruct (Hok n r1 Hdel) as [-> ->]. split; reflexivity.
Qed.

(** [exists], [size] and [clear] *)

Lemma cache_exists_run key w :
  exists b r' tail,
    cache_exists key w =
      (Ok b, World r' (pg w) (log w ++ EvRedis ["EXISTS"; key] :: tail))
    /\ (forall e r1, redis_exists key (redis w) = (Throw e, r1) ->
        b = false /\ r' = r1 /\
        tail = [error_line ("Failed to check existence of key " ++ quoted key) e])
    /\ (forall n r1, redis_exists key (redis w) = (Ok n, r1) ->
        b = (0 <? n) /\ r' = r1 /\ tail = []).
Proof.
  unfold_cache. unfold_eff.
  destruct (redis_exists key (redis w)) as [[n|e] r'].
  - exists (0 <? n), r', []. repeat split; intros; congruence.
  - exists false, r',
      [error_line ("Failed to check existence of key " ++ quoted key) e].
    log_simpl. repeat split; intros; congruence.
Qed.

Lemma cache_size_run w :
  exists n r' tail,
    cache_size w = (Ok n, World r' (pg w) (log w ++ EvRedis ["DBSIZE"] :: tail))
    /\ (forall e r1, redis_dbsize (redis w) = (Throw e, r1) ->
        n = 0 /\ r' = r1 /\
        tail = [error_line "Failed to retrieve cache size" e])
    /\ (forall k r1, redis_dbsize (redis w) = (Ok k, r1) ->
        n = k /\ r' = r1 /\ tail = []).
Proof.
  unfold_cache. unfold_eff.
  destruct (redis_dbsize (redis w)) as [[n|e] r'].
  - exists n, r', []. repeat split; intros; congruence.
  - exists 0, r', [error_line "Failed to retrieve cache size" e].
    log_simpl. repeat split; intros; congruence.
Qed.

Lemma cache_clear_completes w : completes cache_clear w.
Proof.
  unfold completes. unfold_cache. unfold_eff.
  destruct (redis_flushdb (redis w)) as [[[]|e] r']; eauto.
Qed.

(** *** The store *)

Lemma db_query_rows text params w rows p' :
  pool_query text params (pg w) = (Ok rows, p') ->
  db_query text params w =
    (Ok rows, World (redis w) p' (log w ++ [EvQuery text params])).
Proof. intros E. unfold db_query. unfold_eff. rewrite E. reflexivity. Qed.

Lemma db_query_error text params w e p' :
  pool_query text params (pg w) = (Throw e, p') ->
  db_query text params w =
    (Throw e,
     World (redis w) p'
       (log w ++ [EvQuery text params;
                  error_line "[DBService] Error executing query:" e])).
Proof.
  intros E. unfold db_query. unfold_eff. rewrite E. log_simpl. reflexivity.
Qed.

(** A payload that passes the handler's truthiness test has keys and
    values. *)
Lemma truthy_payload (data : jsval) :
  truthy data = true ->
  exists keys values, Object_keys data = Ok keys /\ Object_values data = Ok values.
Proof. destruct data; cbn; intros; try discriminate; eauto. Qed.

End Cache.

Section Handlers.

Context {R P : Type} {RC : RedisClient R} {PP : PgPool P} {JP : JsonParser}.

Implicit Types (w : world R P) (req : request) (id row : jsval).

(** *** [updateBusDetails], branch by branch *)

Lemma update_bad_request req w :
  truthy (field "id" (req_params req)) = false \/ truthy (req_body req) = false ->
  updateBusDetails req w = (Sent bad_update, w).
Proof.
  intros Hbad. unfold updateBusDetails, handler.
  replace (negb (truthy (field "id" (req_params req)))
           || negb (truthy (req_body req))) with true; [reflexivity|].
  destruct Hbad as [-> | ->]; cbn; [reflexivity|].
  destruct (truthy (field "id" (req_params req))); reflexivity.
Qed.

Section Accepted.

Variables (req : request) (w : world R P).
Variables (keys : list string) (values : list jsval).

Let id := field "id" (req_params req).
Let text := update_text BUS_DATA_TABLE keys.
Let params := (values ++ [id])%list.

Hypothesis id_given : truthy id = true.
Hypothesis body_given : truthy (req_body req) = true.
Hypothesis body_keys : Object_keys (req_body req) = Ok keys.
Hypothesis body_values : Object_values (req_body req) = Ok values.

Lemma update_enters :
  updateBusDetails req w =
    handler
      (updatedBus <- repo_update BUS_DATA_TABLE id (req_body req) ;;
       if negb (truthy updatedBus) then ret not_found
       else cache_invalidate (id_key id) ;;; ret (updated updatedBus)) w.
Proof.
  unfold updateBusDetails. fold id. rewrite id_given, body_given. reflexivity.
Qed.

Lemma repo_update_run :
  repo_update BUS_DATA_TABLE id (req_body req) w =
    match db_query text params w with
    | (Ok [], w') => (Ok JNull, w')
    | (Ok (row :: _), w') => (Ok (if truthy row then row else JNull), w')
    | (Throw e, w') => (Throw e, w')
    end.
Proof.
  unfold repo_update. rewrite body_keys, body_values.
  unfold bind at 1, lift_result at 1. unfold bind at 1, lift_result at 1.
  unfold bind, ret. fold text params.
  destruct (db_query text params w) as [[[|row rest]|e] w']; reflexivity.
Qed.

Lemma update_store_error e p' :
  pool_query text params (pg w) = (Throw e, p') ->
  updateBusDetails req w =
    (Next e,
     World (redis w) p'
       (log w ++ [EvQuery text params;
                  error_line "[DBService] Error executing query:" e])).
Proof.
  intros E. rewrite update_enters. unfold handler, bind at 1.
  rewrite repo_update_run, (db_query_error _ _ _ _ _ E). reflexivity.
Qed.

Lemma update_no_row rows p' :
  pool_query text params (pg w) = (Ok rows, p') ->
  match rows with
  | [] => True
  | row :: _ => truthy row = false
  end ->
  updateBusDetails req w =
    (Sent not_found, World (redis w) p' (log w ++ [EvQuery text params])).
Proof.
  intros E Hrows. rewrite update_enters. unfold handler, bind at 1.
  rewrite repo_update_run, (db_query_rows _ _ _ _ _ E).
  destruct rows as [|row rest]; [reflexivity|]. rewrite Hrows. reflexivity.
Qed.

Lemma update_row row rest p' :
  pool_query text params (pg w) = (Ok (row :: rest), p') ->
  truthy row = true ->
  exists r' tail,
    updateBusDetails req w =
      (Sent (updated row),
       World r' p'
         (log w ++ EvQuery text params :: EvRedis ["DEL"; id_key id] :: tail))
    /\ console_only tail
    /\ (forall e r1, redis_del (id_key id) (redis w) = (Throw e, r1) ->
        r' = r1 /\
        tail = [error_line ("Failed to delete key " ++ quoted (id_key id)) e;
                audit_line (id_key id)])
    /\ (forall n r1, redis_del (id_key id) (redis w) = (Ok n, r1) ->
        r' = r1 /\ tail = [audit_line (id_key id)]).
Proof.
  intros E Hrow. rewrite update_enters. unfold handler, bind at 1.
  rewrite repo_update_run, (db_query_rows _ _ _ _ _ E), Hrow.
  cbn iota. rewrite Hrow. cbn [negb].
  set (w1 := World (redis w) p' (log w ++ [EvQuery text params])).
  destruct (cache_invalidate_run (id_key id) w1)
    as (r' & tail & Erun & Hno & Hfail & Hok).
  exists r', tail. unfold bind, ret. rewrite Erun. subst w1. log_simpl.
  split; [reflexivity|]. split; [exact Hno|]. split; [exact Hfail | exact Hok].
Qed.

End Accepted.

(** *** [deleteBusDetails], branch by branch *)

Lemma delete_bad_request req w :
  truthy (field "id" (req_params req)) = false ->
  deleteBusDetails req w = (Sent bad_delete, w).
Proof.
  intros Hbad. unfold deleteBusDetails, handler. rewrite Hbad. reflexivity.
Qed.

Lemma repo_delete_run tableName id w :
  repo_delete tableName id w =
    match db_query (delete_text tableName) [id] w with
    | (Ok [], w') => (Ok false, w')
    | (Ok (row :: _), w') =>
        match get_prop row "affectedRows" with
        | Ok affected => (Ok (gt_zero affected), w')
        | Throw e => (Throw e, w')
        end
    | (Throw e, w') => (Throw e, w')
    end.
Proof.
  unfold repo_delete, bind at 1.
  destruct (db_query (delete_text tableName) [id] w) as [[[|row rest]|e] w'];
    reflexivity.
Qed.

Section Addressed.

Variables (req : request) (w : world R P).

Let id := field "id" (req_params req).
Let text := delete_text BUS_DATA_TABLE.

Hypothesis id_given : truthy id = true.

Lemma delete_enters :
  deleteBusDetails req w =
    handler
      (deletedBus <- repo_delete BUS_DATA_TABLE id ;;
       if negb deletedBus then ret not_found
       else cache_invalidate (id_key id) ;;;
            ret (Response 200 true "Bus details deleted successfully"
                   (JBool deletedBus))) w.
Proof. unfold deleteBusDetails. fold id. rewrite id_given. reflexivity. Qed.

Lemma delete_store_error e p' :
  pool_query text [id] (pg w) = (Throw e, p') ->
  deleteBusDetails req w =
    (Next e,
     World (redis w) p'
       (log w ++ [EvQuery text [id];
                  error_line "[DBService] Error executing query:" e])).
Proof.
  intros E. rewrite delete_enters. unfold handler, bind at 1.
  rewrite repo_delete_run. fold text. rewrite (db_query_error _ _ _ _ _ E). reflexivity.
Qed.

(** No row in the outcome of the DELETE: the handler answers 404. *)
Lemma delete_no_row p' :
  pool_query text [id] (pg w) = (Ok [], p') ->
  deleteBusDetails req w =
    (Sent not_found, World (redis w) p' (log w ++ [EvQuery text [id]])).
Proof.
  intros E. rewrite delete_enters. unfold handler, bind at 1.
  rewrite repo_delete_run. fold text. rewrite (db_query_rows _ _ _ _ _ E). reflexivity.
Qed.

(** A first row: 404 unless its [affectedRows] is positive, in which
    case the key is invalidated and the answer is 200; a first row that is
    [null] or [undefined] raises a TypeError. *)
Lemma delete_first_row row rest p' :
  pool_query text [id] (pg w) = (Ok (row :: rest), p') ->
  match get_prop row "affectedRows" with
  | Ok affected =>
      gt_zero affected = false /\
      deleteBusDetails req w =
        (Sent not_found, World (redis w) p' (log w ++ [EvQuery text [id]]))
      \/
      gt_zero affected = true /\
      exists r' tail,
        deleteBusDetails req w =
          (Sent deleted,
           World r' p'
             (log w ++ EvQuery text [id] :: EvRedis ["DEL"; id_key id] :: tail))
        /\ console_only tail
        /\ (forall e r1, redis_del (id_key id) (redis w) = (Throw e, r1) ->
            r' = r1 /\
            tail = [error_line ("Failed to delete key " ++ quoted (id_key id)) e;
                    audit_line (id_key id)])
        /\ (forall n r1, redis_del (id_key id) (redis w) = (Ok n, r1) ->
            r' = r1 /\ tail = [audit_line (id_key id)])
  | Throw e =>
      deleteBusDetails req w =
        (Next e, World (redis w) p' (log w ++ [EvQuery text [id]]))
  end.
Proof.
  intros E.
  assert (Hrun : deleteBusDetails req w =
            match get_prop row "affectedRows" with
            | Ok affected =>
                handler
                  (if negb (gt_zero affected) then ret not_found
                   else cache_invalidate (id_key id) ;;;
                        ret (Response 200 true "Bus details deleted successfully"
                               (JBool (gt_zero affected))))
                  (World (redis w) p' (log w ++ [EvQuery text [id]]))
            | Throw e =>
                (Next e, World (redis w) p' (log w ++ [EvQuery text [id]]))
            end).
  { rewrite delete_enters. unfold handler, bind at 1.
    rewrite repo_delete_run. fold text. rewrite (db_query_rows _ _ _ _ _ E).
    destruct (get_prop row "affectedRows"); reflexivity. }
  rewrite Hrun. clear Hrun.
  destruct (get_prop row "affectedRows") as [affected|e]; [|reflexivity].
  destruct (gt_zero affected) eqn:Hgt; cbn [negb].
  - right. split; [reflexivity|].
    set (w1 := World (redis w) p' (log w ++ [EvQuery text [id]])).
    destruct (cache_invalidate_run (id_key id) w1)
      as (r' & tail & Erun & Hno & Hfail & Hok).
    exists r', tail. unfold handler, bind, ret. rewrite Erun. subst w1. log_simpl.
    split; [reflexivity|]. split; [exact Hno|]. split; [exact Hfail | exact Hok].
  - left. split; reflexivity.
Qed.

End Addressed.

(** *** [getBusDetails], branch by branch *)

Lemma db_getOne_run text params w :
  db_getOne text params w =
    match db_query text params w with
    | (Ok rows, w') =>
        (Ok match rows with
            | [] => JNull
            | row :: _ => row
            end, w')
    | (Throw e, w') => (Throw e, w')
    end.
Proof.
  unfold db_getOne, bind, ret.
  destruct (db_query text params w) as [[rows|e] w']; reflexivity.
Qed.

(** The repository call is made whenever the selector is truthy, and its
    outcome is the outcome of [fetchBusDetails]: the test on [busDetails]
    sees a promise and never fires. *)
Lemma fetchBusDetails_run (query : list (string * jsval)) w :
  fetchBusDetails query w =
    if truthy (field "id" query) then
      repo_getById BUS_DATA_TABLE (field "id" query) w
    else if truthy (field "route_number" query) then
      repo_getByRouteNo BUS_DATA_TABLE (field "route_number" query) w
    else
      (Throw no_bus,
       World (redis w) (pg w)
         (log w ++ [error_line "Failed to fetch bus details from database:" no_bus])).
Proof.
  unfold fetchBusDetails.
  destruct (truthy (field "id" query)).
  - unfold bind, try_catch, ret, settle. cbn.
    destruct (repo_getById _ _ w) as [[v|e] w']; reflexivity.
  - destruct (truthy (field "route_number" query)).
    + unfold bind, try_catch, ret, settle. cbn.
      destruct (repo_getByRouteNo _ _ w) as [[v|e] w']; reflexivity.
    + reflexivity.
Qed.

Lemma get_bad_request req w :
  truthy (field "id" (req_query req)) = false ->
  truthy (field "route_number" (req_query req)) = false ->
  getBusDetails req w = (Sent bad_read, w).
Proof.
  intros Hid Hrn. unfold getBusDetails, handler. rewrite Hid, Hrn. reflexivity.
Qed.

Section Selected.

Variables (req : request) (w : world R P).

Let id := field "id" (req_query req).
Let route_number := field "route_number" (req_query req).
Let query := read_query id route_number.
Let key := stringified query.

Hypothesis selected : truthy id = true \/ truthy route_number = true.

Lemma get_enters :
  getBusDetails req w =
    handler
      (cachedBusDetails <- cache_get key ;;
       if truthy cachedBusDetails then ret (from_cache cachedBusDetails)
       else
         busDetails <- fetchBusDetails query ;;
         cache_put key busDetails ;;;
         ret (from_store busDetails)) w.
Proof.
  unfold getBusDetails. fold id route_number.
  replace (negb (truthy id) && negb (truthy route_number)) with false;
    [reflexivity|].
  destruct selected as [-> | ->]; cbn; [reflexivity|].
  destruct (truthy id); reflexivity.
Qed.

Lemma get_hit v w1 :
  cache_get key w = (Ok v, w1) ->
  truthy v = true ->
  getBusDetails req w = (Sent (from_cache v), w1).
Proof.
  intros E Hv. rewrite get_enters. unfold handler, bind at 1.
  rewrite E, Hv. reflexivity.
Qed.

Lemma get_miss v w1 :
  cache_get key w = (Ok v, w1) ->
  truthy v = false ->
  getBusDetails req w =
    match fetchBusDetails query w1 with
    | (Ok busDetails, w2) =>
        (Sent (from_store busDetails), snd (cache_put key busDetails w2))
    | (Throw e, w2) => (Next e, w2)
    end.
Proof.
  intros E Hv. rewrite get_enters. unfold handler, bind at 1.
  rewrite E, Hv. unfold bind at 1.
  destruct (fetchBusDetails query w1) as [[busDetails|e] w2]; [|reflexivity].
  destruct (cache_put_run key busDetails w2) as (r' & tail & Eput & _).
  unfold bind, ret. rewrite Eput. reflexivity.
Qed.

End Selected.

(** The query object and the key when an identifier is given. *)
Lemma read_query_by_id id route_number :
  truthy id = true ->
  read_query id route_number = [("id", JStr (ToString id))].
Proof. intros Hid. unfold read_query. rewrite Hid. reflexivity. Qed.

Lemma read_query_by_route_number id route_number :
  truthy id = false ->
  read_query id route_number = [("route_number", JStr (ToString route_number))].
Proof. intros Hid. unfold read_query. rewrite Hid. reflexivity. Qed.

Lemma truthy_JStr (s : string) : truthy (JStr s) = true <-> s <> "".
Proof.
  cbn. destruct (String.eqb_spec s ""); cbn; split; intros; congruence.
Qed.

(** A read by identifier that the cache does not serve: the SELECT by
    id runs, its first row (or [null]) is written to the cache under the
    same key and sent with a 200. *)
Lemma get_by_id_from_store req w v w1 rows p' :
  let id := field "id" (req_query req) in
  let text := select_by_id_text BUS_DATA_TABLE in
  truthy id = true ->
  ToString id <> "" ->
  cache_get (id_key id) w = (Ok v, w1) ->
  truthy v = false ->
  pool_query text [JStr (ToString id)] (pg w1) = (Ok rows, p') ->
  exists r' tail,
    getBusDetails req w =
      (Sent (from_store (first_row rows)),
       World r' p'
         (log w1 ++ EvQuery text [JStr (ToString id)]
                 :: EvRedis ["SET"; id_key id; "EX"; "3600"] :: tail))
    /\ console_only tail.
Proof.
  intros id text Hid Hs Ecache Hv Erows.
  assert (Hsel : truthy id = true \/
                 truthy (field "route_number" (req_query req)) = true)
    by (left; exact Hid).
  pose proof (get_miss req w Hsel v w1) as Hrun. cbv zeta in Hrun.
  fold id in Hrun. rewrite (read_query_by_id _ _ Hid) in Hrun.
  fold (id_key id) in Hrun. rewrite (Hrun Ecache Hv). clear Hrun.
  rewrite fetchBusDetails_run. cbn [field String.eqb Ascii.eqb Bool.eqb].
  apply truthy_JStr in Hs. rewrite Hs.
  unfold repo_getById. rewrite db_getOne_run. fold text.
  rewrite (db_query_rows _ _ _ _ _ Erows). fold (first_row rows).
  set (w2 := World (redis w1) p' (log w1 ++ [EvQuery text [JStr (ToString id)]])).
  destruct (cache_put_run (id_key id) (first_row rows) w2)
    as (r' & tail & Eput & Hno & _).
  exists r', tail. rewrite Eput. subst w2. log_simpl. split; [reflexivity|exact Hno].
Qed.

Lemma get_by_route_number_from_store req w v w1 rows p' :
  let route_number := field "route_number" (req_query req) in
  let text := select_by_route_no_text BUS_DATA_TABLE in
  truthy (field "id" (req_query req)) = false ->
  truthy route_number = true ->
  ToString route_number <> "" ->
  cache_get (route_number_key route_number) w = (Ok v, w1) ->
  truthy v = false ->
  pool_query text [JStr (ToString route_number)] (pg w1) = (Ok rows, p') ->
  exists r' tail,
    getBusDetails req w =
      (Sent (from_store (first_row rows)),
       World r' p'
         (log w1 ++ EvQuery text [JStr (ToString route_number)]
                 :: EvRedis ["SET"; route_number_key route_number; "EX"; "3600"]
                 :: tail))
    /\ console_only tail.
Proof.
  intros route_number text Hid Hrn Hs Ecache Hv Erows.
  assert (Hsel : truthy (field "id" (req_query req)) = true \/
                 truthy route_number = true)
    by (right; exact Hrn).
  pose proof (get_miss req w Hsel v w1) as Hrun. cbv zeta in Hrun.
  fold route_number in Hrun. rewrite (read_query_by_route_number _ _ Hid) in Hrun.
  fold (route_number_key route_number) in Hrun.
  rewrite (Hrun Ecache Hv). clear Hrun.
  rewrite fetchBusDetails_run. cbn [field String.eqb Ascii.eqb Bool.eqb].
  change (truthy JUndefined) with false. cbv iota.
  apply truthy_JStr in Hs. rewrite Hs.
  unfold repo_getByRouteNo. rewrite db_getOne_run. fold text.
  rewrite (db_query_rows _ _ _ _ _ Erows). fold (first_row rows).
  set (w2 := World (redis w1) p'
               (log w1 ++ [EvQuery text [JStr (ToString route_number)]])).
  destruct (cache_put_run (route_number_key route_number) (first_row rows) w2)
    as (r' & tail & Eput & Hno & _).
  exists r', tail. rewrite Eput. subst w2. log_simpl. split; [reflexivity|exact Hno].
Qed.

(** *** What a handler may do to the cache and to the store *)

Lemma db_query_effects text params w :
  exists tail,
    log (snd (db_query text params w)) = (log w ++ EvQuery text params :: tail)%list
    /\ redis (snd (db_query text params w)) = redis w
    /\ console_only tail.
Proof.
  destruct (pool_query text params (pg w)) as [[rows|e] p'] eqn:E.
  - rewrite (db_query_rows _ _ _ _ _ E). exists []. cbn.
    split; [reflexivity|]. split; [reflexivity | console_lines].
  - rewrite (db_query_error _ _ _ _ _ E).
    exists [error_line "[DBService] Error executing query:" e]. cbn.
    split; [reflexivity|]. split; [reflexivity | console_lines].
Qed.

Lemma db_getOne_effects text params w :
  exists tail,
    log (snd (db_getOne text params w)) = (log w ++ EvQuery text params :: tail)%list
    /\ redis (snd (db_getOne text params w)) = redis w
    /\ console_only tail.
Proof.
  rewrite db_getOne_run.
  destruct (db_query_effects text params w) as (tail & Hlog & Hredis & Hno).
  exists tail.
  destruct (db_query text params w) as [[rows|e] w']; cbn in *; auto.
Qed.

Lemma fetchBusDetails_effects (query : list (string * jsval)) w :
  exists new,
    log (snd (fetchBusDetails query w)) = (log w ++ new)%list
    /\ redis (snd (fetchBusDetails query w)) = redis w
    /\ no_command new
    /\ only_query (lookup_statement query) new.
Proof.
  rewrite fetchBusDetails_run. unfold lookup_statement.
  destruct (truthy (field "id" query)).
  - unfold repo_getById.
    destruct (db_getOne_effects (select_by_id_text BUS_DATA_TABLE)
                [field "id" query] w) as (tail & Hlog & Hredis & Hc).
    eexists. split; [exact Hlog|]. split; [exact Hredis|]. split.
    + intros c [Hin|Hin]; [discriminate Hin|].
      destruct (console_only_no_command _ _ Hc Hin).
    + intros text params [Hin|Hin]; [congruence|].
      destruct (console_only_no_query _ _ _ Hc Hin).
  - destruct (truthy (field "route_number" query)).
    + unfold repo_getByRouteNo.
      destruct (db_getOne_effects (select_by_route_no_text BUS_DATA_TABLE)
                  [field "route_number" query] w) as (tail & Hlog & Hredis & Hc).
      eexists. split; [exact Hlog|]. split; [exact Hredis|]. split.
      * intros c [Hin|Hin]; [discriminate Hin|].
        destruct (console_only_no_command _ _ Hc Hin).
      * intros text params [Hin|Hin]; [congruence|].
        destruct (console_only_no_query _ _ _ Hc Hin).
    + exists [error_line "Failed to fetch bus details from database:" no_bus].
      cbn. split; [reflexivity|]. split; [reflexivity|]. split.
      * intros c [Hin|[]]. discriminate Hin.
      * intros text params [Hin|[]]. discriminate Hin.
Qed.

(** A read with a selector: the cache is asked first, under the key of
    the query; the only later command is the write-back under the same
    key, and the only statement is the lookup for the query. *)
Lemma get_effects req w :
  let id := field "id" (req_query req) in
  let route_number := field "route_number" (req_query req) in
  let query := read_query id route_number in
  let key := stringified query in
  truthy id = true \/ truthy route_number = true ->
  exists tail,
    log (snd (getBusDetails req w)) = (log w ++ EvRedis ["GET"; key] :: tail)%list
    /\ only_command ["SET"; key; "EX"; "3600"] tail
    /\ only_query (lookup_statement query) tail.
Proof.
  intros id route_number query key Hsel.
  destruct (cache_get_completes key w) as (v & r1 & tail1 & Ecache & Hc1).
  destruct (truthy v) eqn:Hv.
  - rewrite (get_hit req w Hsel v _ Ecache Hv). exists tail1. cbn.
    split; [reflexivity|]. split.
    + intros c Hin. destruct (console_only_no_command _ _ Hc1 Hin).
    + intros text params Hin. destruct (console_only_no_query _ _ _ Hc1 Hin).
  - rewrite (get_miss req w Hsel v _ Ecache Hv). fold id route_number query key.
    set (w1 := World r1 (pg w) (log w ++ EvRedis ["GET"; key] :: tail1)).
    destruct (fetchBusDetails_effects query w1) as (new & Hlog & _ & Hnc & Hq).
    destruct (fetchBusDetails query w1) as [[busDetails|e] w2]; cbn [snd] in *.
    + destruct (cache_put_run key busDetails w2) as (r' & tail & Eput & Hc & _).
      rewrite Eput. cbn [snd log]. rewrite Hlog. subst w1. cbn [log].
      exists (tail1 ++ new ++ EvRedis ["SET"; key; "EX"; "3600"] :: tail)%list.
      split; [rewrite <- !app_assoc; reflexivity|]. split.
      * intros c Hin. apply in_app_or in Hin as [Hin|Hin];
          [destruct (console_only_no_command _ _ Hc1 Hin)|].
        apply in_app_or in Hin as [Hin|[Hin|Hin]].
        -- destruct (Hnc _ Hin).
        -- congruence.
        -- destruct (console_only_no_command _ _ Hc Hin).
      * intros text params Hin. apply in_app_or in Hin as [Hin|Hin];
          [destruct (console_only_no_query _ _ _ Hc1 Hin)|].
        apply in_app_or in Hin as [Hin|[Hin|Hin]].
        -- exact (Hq _ _ Hin).
        -- discriminate Hin.
        -- destruct (console_only_no_query _ _ _ Hc Hin).
    + rewrite Hlog. subst w1. cbn [log]. exists (tail1 ++ new)%list.
      split; [rewrite <- !app_assoc; reflexivity|]. split.
      * intros c Hin. apply in_app_or in Hin as [Hin|Hin];
          [destruct (console_only_no_command _ _ Hc1 Hin) | destruct (Hnc _ Hin)].
      * intros text params Hin. apply in_app_or in Hin as [Hin|Hin];
          [destruct (console_only_no_query _ _ _ Hc1 Hin) | exact (Hq _ _ Hin)].
Qed.

(** An update or a delete sends the cache at most one command, the DEL
    of the key of its identifier, and leaves the engine as that command
    left it. *)
Lemma update_effects req w :
  let id := field "id" (req_params req) in
  let w' := snd (updateBusDetails req w) in
  exists new,
    log w' = (log w ++ new)%list
    /\ only_command ["DEL"; id_key id] new
    /\ (redis w' = redis w \/ redis w' = snd (redis_del (id_key id) (redis w))).
Proof.
  intros id w'. subst w'.
  destruct (truthy id) eqn:Hid;
    [|rewrite update_bad_request by (left; exact Hid);
      exists []; cbn; rewrite app_nil_r;
      split; [reflexivity|]; split; [intros c []| left; reflexivity]].
  destruct (truthy (req_body req)) eqn:Hbody;
    [|rewrite update_bad_request by (right; exact Hbody);
      exists []; cbn; rewrite app_nil_r;
      split; [reflexivity|]; split; [intros c []| left; reflexivity]].
  destruct (truthy_payload _ Hbody) as (keys & values & Hk & Hv).
  destruct (pool_query (update_text BUS_DATA_TABLE keys) (values ++ [id]) (pg w))
    as [[rows|e] p'] eqn:E.
  - assert (Hcases : match rows with [] => True | row :: _ => truthy row = false end
                     \/ exists row rest, rows = row :: rest /\ truthy row = true).
    { destruct rows as [|row rest]; [left; exact I|].
      destruct (truthy row) eqn:Hrow; [right; eauto | left; reflexivity]. }
    destruct Hcases as [Hnone | (row & rest & -> & Hrow)].
    + rewrite (update_no_row req w keys values Hid Hbody Hk Hv rows p' E Hnone).
      eexists. cbn. split; [reflexivity|].
      split; [intros c [Hin|[]]; discriminate Hin | left; reflexivity].
    + destruct (update_row req w keys values Hid Hbody Hk Hv row rest p' E Hrow)
        as (r' & tail & Erun & Hc & Hfail & Hok).
      rewrite Erun. eexists. cbn [snd log redis]. split; [reflexivity|]. split.
      * intros c [Hin|[Hin|Hin]];
          [discriminate Hin | injection Hin as <-; reflexivity |].
        destruct (console_only_no_command _ _ Hc Hin).
      * right. fold id.
        destruct (redis_del (id_key id) (redis w)) as [[n|e] r1] eqn:Edel.
        -- destruct (Hok n r1 Edel) as [-> _]. reflexivity.
        -- destruct (Hfail e r1 Edel) as [-> _]. reflexivity.
  - rewrite (update_store_error req w keys values Hid Hbody Hk Hv e p' E).
    eexists. cbn. split; [reflexivity|].
    split; [intros c [Hin|[Hin|[]]]; discriminate Hin | left; reflexivity].
Qed.

Lemma delete_effects req w :
  let id := field "id" (req_params req) in
  let w' := snd (deleteBusDetails req w) in
  exists new,
    log w' = (log w ++ new)%list
    /\ only_command ["DEL"; id_key id] new
    /\ (redis w' = redis w \/ redis w' = snd (redis_del (id_key id) (redis w))).
Proof.
  intros id w'. subst w'.
  destruct (truthy id) eqn:Hid;
    [|rewrite delete_bad_request by exact Hid;
      exists []; cbn; rewrite app_nil_r;
      split; [reflexivity|]; split; [intros c []| left; reflexivity]].
  destruct (pool_query (delete_text BUS_DATA_TABLE) [id] (pg w))
    as [[[|row rest]|e] p'] eqn:E.
  - rewrite (delete_no_row req w Hid p' E). eexists. cbn. split; [reflexivity|].
    split; [intros c [Hin|[]]; discriminate Hin | left; reflexivity].
  - pose proof (delete_first_row req w Hid row rest p' E) as Hrow.
    destruct (get_prop row "affectedRows") as [affected|e].
    + destruct Hrow as [[_ Erun] | [_ (r' & tail & Erun & Hc & Hfail & Hok)]];
        rewrite Erun; eexists; cbn [snd log redis]; (split; [reflexivity|]).
      * split; [intros c [Hin|[]]; discriminate Hin | left; reflexivity].
      * split.
        -- intros c [Hin|[Hin|Hin]];
          [discriminate Hin | injection Hin as <-; reflexivity |].
           destruct (console_only_no_command _ _ Hc Hin).
        -- right. fold id.
           destruct (redis_del (id_key id) (redis w)) as [[n|e] r1] eqn:Edel.
           ++ destruct (Hok n r1 Edel) as [-> _]. reflexivity.
           ++ destruct (Hfail e r1 Edel) as [-> _]. reflexivity.
    + rewrite Hrow. eexists. cbn. split; [reflexivity|].
      split; [intros c [Hin|[]]; discriminate Hin | left; reflexivity].
  - rewrite (delete_store_error req w Hid e p' E).
    eexists. cbn. split; [reflexivity|].
    split; [intros c [Hin|[Hin|[]]]; discriminate Hin | left; reflexivity].
Qed.

(** A read by identifier that the cache does not serve sends the SELECT
    by id, whatever the store answers. *)
Lemma get_by_id_sends_select req w v w1 :
  let id := field "id" (req_query req) in
  truthy id = true ->
  ToString id <> "" ->
  cache_get (id_key id) w = (Ok v, w1) ->
  truthy v = false ->
  exists post,
    log (snd (getBusDetails req w)) =
      (log w1 ++ EvQuery (select_by_id_text BUS_DATA_TABLE) [JStr (ToString id)]
              :: post)%list.
Proof.
  intros id Hid Hs Ecache Hv.
  assert (Hsel : truthy id = true \/
                 truthy (field "route_number" (req_query req)) = true)
    by (left; exact Hid).
  pose proof (get_miss req w Hsel v w1) as Hrun. cbv zeta in Hrun.
  fold id in Hrun. rewrite (read_query_by_id _ _ Hid) in Hrun.
  fold (id_key id) in Hrun. rewrite (Hrun Ecache Hv). clear Hrun.
  rewrite fetchBusDetails_run. cbn [field String.eqb Ascii.eqb Bool.eqb].
  apply truthy_JStr in Hs. rewrite Hs. unfold repo_getById.
  destruct (db_getOne_effects (select_by_id_text BUS_DATA_TABLE)
              [JStr (ToString id)] w1) as (tail & Hlog & _).
  destruct (db_getOne _ _ w1) as [[busDetails|e] w2]; cbn [snd] in *.
  - destruct (cache_put_run (id_key id) busDetails w2) as (r' & tail2 & Eput & _).
    rewrite Eput. cbn [log]. rewrite Hlog, <- app_assoc. cbn [app]. eauto.
  - rewrite Hlog. eauto.
Qed.

(** A read that the cache answers with a falsy value is not served from
    the cache. *)
Lemma get_not_served req w v w1 :
  let id := field "id" (req_query req) in
  let route_number := field "route_number" (req_query req) in
  truthy id = true \/ truthy route_number = true ->
  cache_get (stringified (read_query id route_number)) w = (Ok v, w1) ->
  truthy v = false ->
  forall x, fst (getBusDetails req w) <> Sent (from_cache x).
Proof.
  intros id route_number Hsel Ecache Hv x.
  rewrite (get_miss req w Hsel v w1 Ecache Hv).
  destruct (fetchBusDetails _ w1) as [[busDetails|e] w2]; cbn [fst];
    intros E; [injection E as E _; discriminate E | discriminate E].
Qed.

End Handlers.

End Runs.

(* ===================================================================== *)
(** ** Properties of the caching layer *)
(* ===================================================================== *)

Import Js Eff Service Ref Notions Scenario Runs.

(** *** Cache failures are never surfaced *)

(** C3.  Whatever the state of the cache, whatever the engine does and
    whatever [JSON.parse] returns, no operation of [CacheService] raises
    to its caller.  When the engine's command fails, [get] returns [null]
    (a miss), [put], [delete] and [invalidate] return after logging the
    failure, [exists] returns [false] and [size] returns [0].  A read whose
    cache lookup fails therefore goes on to the store and answers 200 with
    the first row of the store's answer, whether or not the write-back to
    the cache fails too. *)
Theorem cache_failures_are_absorbed
    {R P : Type} {RC : RedisClient R} {PP : PgPool P} {JP : JsonParser}
    (w : world R P) (key : string) (value : jsval) :
  (completes (cache_get key) w /\ completes (cache_put key value) w /\
   completes (cache_delete key) w /\ completes (cache_invalidate key) w /\
   completes (cache_exists key) w /\ completes cache_size w)
  /\ (forall e r', redis_get key (redis w) = (Throw e, r') ->
      cache_get key w =
        (Ok JNull,
         World r' (pg w)
           (log w ++ [EvRedis ["GET"; key];
                      error_line ("Failed to get value for key " ++ quoted key) e])))
  /\ (forall e r', redis_set key (JSON_stringify value) 3600 (redis w) = (Throw e, r') ->
      cache_put key value w =
        (Ok tt,
         World r' (pg w)
           (log w ++ [EvRedis ["SET"; key; "EX"; "3600"];
                      error_line ("Failed to set value for key " ++ quoted key) e])))
  /\ (forall e r', redis_del key (redis w) = (Throw e, r') ->
      cache_delete key w =
        (Ok tt,
         World r' (pg w)
           (log w ++ [EvRedis ["DEL"; key];
                      error_line ("Failed to delete key " ++ quoted key) e]))
      /\
      cache_invalidate key w =
        (Ok tt,
         World r' (pg w)
           (log w ++ [EvRedis ["DEL"; key];
                      error_line ("Failed to delete key " ++ quoted key) e;
                      audit_line key])))
  /\ (forall e r', redis_exists key (redis w) = (Throw e, r') ->
      cache_exists key w =
        (Ok false,
         World r' (pg w)
           (log w ++ [EvRedis ["EXISTS"; key];
                      error_line ("Failed to check existence of key " ++ quoted key) e])))
  /\ (forall e r', redis_dbsize (redis w) = (Throw e, r') ->
      cache_size w =
        (Ok 0,
         World r' (pg w)
           (log w ++ [EvRedis ["DBSIZE"];
                      error_line "Failed to retrieve cache size" e])))
  /\ (forall req e r' rows p',
      let id := field "id" (req_query req) in
      truthy id = true ->
      ToString id <> "" ->
      redis_get (id_key id) (redis w) = (Throw e, r') ->
      pool_query (select_by_id_text BUS_DATA_TABLE) [JStr (ToString id)] (pg w)
        = (Ok rows, p') ->
      exists w',
        getBusDetails req w = (Sent (from_store (first_row rows)), w')
        /\ pg w' = p')
  /\ (forall req e r' rows p',
      let route_number := field "route_number" (req_query req) in
      truthy (field "id" (req_query req)) = false ->
      truthy route_number = true ->
      ToString route_number <> "" ->
      redis_get (route_number_key route_number) (redis w) = (Throw e, r') ->
      pool_query (select_by_route_no_text BUS_DATA_TABLE)
        [JStr (ToString route_number)] (pg w) = (Ok rows, p') ->
      exists w',
        getBusDetails req w = (Sent (from_store (first_row rows)), w')
        /\ pg w' = p').
Proof.
  split.
  { unfold completes. repeat split.
    - destruct (cache_get_completes key w) as (v & r' & tail & E & _); eauto.
    - destruct (cache_put_run key value w) as (r' & tail & E & _); eauto.
    - destruct (cache_delete_run key w) as (r' & tail & E & _); eauto.
    - destruct (cache_invalidate_run key w) as (r' & tail & E & _); eauto.
    - destruct (cache_exists_run key w) as (b & r' & tail & E & _); eauto.
    - destruct (cache_size_run w) as (n & r' & tail & E & _); eauto. }
  split; [intros e r' E; exact (cache_get_failure key w e r' E)|].
  split.
  { intros e r' E.
    destruct (cache_put_run key value w) as (r1 & tail & Erun & _ & Hfail & _).
    destruct (Hfail e r' E) as [-> ->]. exact Erun. }
  split.
  { intros e r' E. split.
    - destruct (cache_delete_run key w) as (r1 & tail & Erun & _ & Hfail & _).
      destruct (Hfail e r' E) as [-> ->]. exact Erun.
    - destruct (cache_invalidate_run key w) as (r1 & tail & Erun & _ & Hfail & _).
      destruct (Hfail e r' E) as [-> ->]. exact Erun. }
  split.
  { intros e r' E.
    destruct (cache_exists_run key w) as (b & r1 & tail & Erun & Hfail & _).
    destruct (Hfail e r' E) as (-> & -> & ->). exact Erun. }
  split.
  { intros e r' E.
    destruct (cache_size_run w) as (n & r1 & tail & Erun & Hfail & _).
    destruct (Hfail e r' E) as (-> & -> & ->). exact Erun. }
  split.
  { intros req e r' rows p' id Hid Hs Eget Erows.
    pose proof (cache_get_failure _ w e r' Eget) as Ecache.
    destruct (get_by_id_from_store req w JNull _ rows p' Hid Hs Ecache eq_refl Erows)
      as (r2 & tail & Erun & _).
    eexists. split; [exact Erun | reflexivity]. }
  { intros req e r' rows p' route_number Hid Hrn Hs Eget Erows.
    pose proof (cache_get_failure _ w e r' Eget) as Ecache.
    destruct (get_by_route_number_from_store req w JNull _ rows p'
                Hid Hrn Hs Ecache eq_refl Erows) as (r2 & tail & Erun & _).
    eexists. split; [exact Erun | reflexivity]. }
Qed.

(** The scenario with the engine unreachable: [GET ?id=1] answers 200 with
    route A1, read from the store. *)
Lemma cache_failures_are_absorbed_witness :
  exists w',
    getBusDetails (RC := redis_down) (PP := pg_pool) (JP := parser)
      (GET [("id", JStr "1")]) start
    = (Sent (from_store route_A1), w')
    /\ pg w' = bus_routes.
Proof.
  refine (proj1 (proj2 (proj2 (proj2 (proj2 (proj2 (proj2
            (cache_failures_are_absorbed
               (RC := redis_down) (PP := pg_pool) (JP := parser)
               start "k" JNull)))))))
            (GET [("id", JStr "1")]) connection_closed ∅
            [route_A1] bus_routes _ _ _ _).
  - reflexivity.
  - discriminate.
  - reflexivity.
  - reflexivity.
Defined.

(** *** Status codes of an update *)




(** *** A read of a record that does not exist *)

(** C2 (the code departs from it).  A read, by identifier or by route
    number, that finds nothing in the cache and no row in the store is not
    answered 404: the handler sends a SET under the key of the selector
    and answers 200 with [null] as data.  [fetchBusDetails] tests the
    promise of the repository call, which is never falsy, so its
    [Bus details not found] error is not raised. *)
Theorem read_of_missing_record_is_answered_200
    {R P : Type} {RC : RedisClient R} {PP : PgPool P} {JP : JsonParser}
    (req : request) (w : world R P) (r' : R) (p' : P) :
  let id := field "id" (req_query req) in
  let route_number := field "route_number" (req_query req) in
  let by_id := select_by_id_text BUS_DATA_TABLE in
  let by_route_no := select_by_route_no_text BUS_DATA_TABLE in
  let answer := Response 200 true "Bus details retrieved successfully" JNull in
  (truthy id = true ->
   ToString id <> "" ->
   redis_get (id_key id) (redis w) = (Ok None, r') ->
   pool_query by_id [JStr (ToString id)] (pg w) = (Ok [], p') ->
   exists r'' tail,
     getBusDetails req w =
       (Sent answer,
        World r'' p'
          (log w ++ [EvRedis ["GET"; id_key id];
                     EvQuery by_id [JStr (ToString id)];
                     EvRedis ["SET"; id_key id; "EX"; "3600"]] ++ tail))
     /\ console_only tail)
  /\ (truthy id = false ->
      truthy route_number = true ->
      ToString route_number <> "" ->
      redis_get (route_number_key route_number) (redis w) = (Ok None, r') ->
      pool_query by_route_no [JStr (ToString route_number)] (pg w) = (Ok [], p') ->
      exists r'' tail,
        getBusDetails req w =
          (Sent answer,
           World r'' p'
             (log w ++ [EvRedis ["GET"; route_number_key route_number];
                        EvQuery by_route_no [JStr (ToString route_number)];
                        EvRedis ["SET"; route_number_key route_number; "EX"; "3600"]]
                    ++ tail))
        /\ console_only tail).
Proof.
  intros id route_number by_id by_route_no answer. split.
  - intros Hid Hs Eget Erows.
    pose proof (cache_get_absent _ w r' Eget) as Ecache.
    destruct (get_by_id_from_store req w JNull _ [] p' Hid Hs Ecache eq_refl Erows)
      as (r'' & tail & Erun & Hc).
    exists r'', tail. split; [|exact Hc].
    rewrite Erun. cbn [log]. rewrite <- app_assoc. reflexivity.
  - intros Hid Hrn Hs Eget Erows.
    pose proof (cache_get_absent _ w r' Eget) as Ecache.
    destruct (get_by_route_number_from_store req w JNull _ [] p'
                Hid Hrn Hs Ecache eq_refl Erows) as (r'' & tail & Erun & Hc).
    exists r'', tail. split; [|exact Hc].
    rewrite Erun. cbn [log]. rewrite <- app_assoc. reflexivity.
Qed.

(** [GET ?id=9] on the two routes: 200 with [null], after a SET under
    the key of id 9. *)
Lemma read_of_missing_record_is_answered_200_witness :
  exists r'' tail,
    getBusDetails (RC := redis_up) (PP := pg_pool) (JP := parser)
      (GET [("id", JStr "9")]) start =
      (Sent (Response 200 true "Bus details retrieved successfully" JNull),
       World r'' bus_routes
         ([EvRedis ["GET"; id_key (JStr "9")];
           EvQuery (select_by_id_text BUS_DATA_TABLE) [JStr "9"];
           EvRedis ["SET"; id_key (JStr "9"); "EX"; "3600"]] ++ tail))
    /\ console_only tail.
Proof.
  apply (proj1 (read_of_missing_record_is_answered_200
                  (RC := redis_up) (PP := pg_pool) (JP := parser)
                  (GET [("id", JStr "9")]) start ∅ bus_routes)).
  - reflexivity.
  - discriminate.
  - reflexivity.
  - reflexivity.
Defined.

(** On the reference keyspace the text written under the key is [null],
    which the next read parses to a falsy value and looks up again. *)
Example missing_record_is_cached_as_null :
  redis (after (getBusDetails (RC := redis_up) (PP := pg_pool) (JP := parser)
                  (GET [("id", JStr "9")])) start)
    !! id_key (JStr "9") = Some ("null", 3600).
Proof. vm_compute. reflexivity. Qed.

(** *** The identifier takes precedence over the route number *)

(** C10.  A read that supplies an identifier uses it alone, whatever
    else the query string carries: the cache is asked under the key
    serialized from [{id: String(id)}], a write-back goes under the same
    key, every statement sent to the store is the SELECT by id with
    [String(id)] as its parameter, and the run is the same for any two
    requests with that identifier, whatever their route numbers.  When
    the cache does not serve the read and [String(id)] is not empty, the
    SELECT by id is sent. *)
Theorem identifier_takes_precedence
    {R P : Type} {RC : RedisClient R} {PP : PgPool P} {JP : JsonParser}
    (req : request) (w : world R P) :
  let id := field "id" (req_query req) in
  let by_id := (select_by_id_text BUS_DATA_TABLE, [JStr (ToString id)]) in
  truthy id = true ->
  (exists tail,
     log (snd (getBusDetails req w))
       = (log w ++ EvRedis ["GET"; id_key id] :: tail)%list
     /\ only_command ["SET"; id_key id; "EX"; "3600"] tail
     /\ only_query (Some by_id) tail
     /\ (ToString id <> "" ->
         (forall response, fst (getBusDetails req w) <> Sent (from_cache response)) ->
         In (EvQuery (fst by_id) (snd by_id)) tail))
  /\ (forall req' : request,
      field "id" (req_query req') = id ->
      getBusDetails req' w = getBusDetails req w).
Proof.
  intros id by_id Hid.
  assert (Hsel : truthy id = true \/
                 truthy (field "route_number" (req_query req)) = true)
    by (left; exact Hid).
  split.
  - pose proof (get_effects req w Hsel) as Heff. cbv zeta in Heff.
    fold id in Heff. rewrite (read_query_by_id _ _ Hid) in Heff.
    fold (id_key id) in Heff.
    destruct Heff as (tail & Hlog & Hcmd & Hq).
    exists tail. split; [exact Hlog|]. split; [exact Hcmd|]. split.
    + intros text params Hin. specialize (Hq _ _ Hin).
      unfold lookup_statement in Hq. cbn [field String.eqb Ascii.eqb Bool.eqb] in Hq.
      change (truthy JUndefined) with false in Hq.
      destruct (truthy (JStr (ToString id))); [exact Hq | discriminate Hq].
    + intros Hs Hnot.
      destruct (cache_get_completes (id_key id) w) as (v & r1 & tail1 & Ecache & _).
      destruct (truthy v) eqn:Hv.
      * exfalso. apply (Hnot v).
        pose proof (get_hit req w Hsel v) as Hhit. cbv zeta in Hhit.
        fold id in Hhit. rewrite (read_query_by_id _ _ Hid) in Hhit.
        fold (id_key id) in Hhit. rewrite (Hhit _ Ecache Hv). reflexivity.
      * destruct (get_by_id_sends_select req w v _ Hid Hs Ecache Hv) as (post & Hsent).
        cbn [log] in Hsent. rewrite Hlog, <- app_assoc in Hsent.
        apply app_inv_head in Hsent. injection Hsent as ->.
        apply in_or_app. right. left. reflexivity.
  - intros req' Hreq'. unfold getBusDetails. rewrite Hreq'. fold id.
    rewrite Hid. cbn [negb andb]. rewrite !(read_query_by_id _ _ Hid).
    reflexivity.
Qed.

(** [GET ?id=1&route_number=B2] on the two routes: the key is that of
    id 1, the lookup is the SELECT by id, and route A1 is returned. *)
Lemma identifier_takes_precedence_witness :
  exists tail,
    log (snd (getBusDetails (RC := redis_up) (PP := pg_pool) (JP := parser)
                (GET [("id", JStr "1"); ("route_number", JStr "B2")]) start))
      = EvRedis ["GET"; id_key (JStr "1")] :: tail
    /\ In (EvQuery (select_by_id_text BUS_DATA_TABLE) [JStr "1"]) tail.
Proof.
  destruct (proj1 (identifier_takes_precedence
                     (RC := redis_up) (PP := pg_pool) (JP := parser)
                     (GET [("id", JStr "1"); ("route_number", JStr "B2")]) start
                     eq_refl))
    as (tail & Hlog & _ & _ & Hsent).
  exists tail. split; [exact Hlog|].
  apply Hsent; [discriminate|]. intros response. vm_compute. discriminate.
Defined.

(** *** The cache key *)

(** C7.  The key is a function of the selector alone.  A read asks the
    cache under [CacheKey s] and writes back under it; an update and a
    delete send no other command than the DEL of [CacheKey s]; so two
    requests with equal selectors, on the read path or on the
    invalidation path, in any state of the service, use the same key
    string. *)
Theorem cache_key_is_deterministic
    {R P : Type} {RC : RedisClient R} {PP : PgPool P} {JP : JsonParser}
    (w : world R P) (s : selector) :
  (forall req,
     read_selector req = Some s ->
     exists tail,
       log (snd (getBusDetails req w))
         = (log w ++ EvRedis ["GET"; CacheKey s] :: tail)%list
       /\ only_command ["SET"; CacheKey s; "EX"; "3600"] tail)
  /\ (forall req,
      write_selector req = Some s ->
      (exists new,
         log (snd (updateBusDetails req w)) = (log w ++ new)%list
         /\ only_command ["DEL"; CacheKey s] new)
      /\ (exists new,
         log (snd (deleteBusDetails req w)) = (log w ++ new)%list
         /\ only_command ["DEL"; CacheKey s] new))
  /\ (forall read write,
      read_selector read = Some s ->
      write_selector write = Some s ->
      stringified (read_query (field "id" (req_query read))
                     (field "route_number" (req_query read)))
        = id_key (field "id" (req_params write))).
Proof.
  split; [|split].
  - intros req Hs. unfold read_selector in Hs.
    destruct (truthy (field "id" (req_query req))) eqn:Hid.
    + injection Hs as <-.
      destruct (get_effects req w (or_introl Hid)) as (tail & Hlog & Hcmd & _).
      rewrite (read_query_by_id _ _ Hid) in Hlog, Hcmd. eauto.
    + destruct (truthy (field "route_number" (req_query req))) eqn:Hrn;
        [|discriminate Hs].
      injection Hs as <-.
      destruct (get_effects req w (or_intror Hrn)) as (tail & Hlog & Hcmd & _).
      rewrite (read_query_by_route_number _ _ Hid) in Hlog, Hcmd. eauto.
  - intros req Hs. unfold write_selector in Hs.
    destruct (truthy (field "id" (req_params req))); [|discriminate Hs].
    injection Hs as <-. split.
    + destruct (update_effects req w) as (new & Hlog & Hcmd & _). eauto.
    + destruct (delete_effects req w) as (new & Hlog & Hcmd & _). eauto.
  - intros read write Hr Hw. unfold read_selector in Hr. unfold write_selector in Hw.
    destruct (truthy (field "id" (req_params write))); [|discriminate Hw].
    injection Hw as <-.
    destruct (truthy (field "id" (req_query read))) eqn:Hid.
    + injection Hr as Hr. rewrite (read_query_by_id _ _ Hid).
      unfold id_key. rewrite Hr. reflexivity.
    + destruct (truthy (field "route_number" (req_query read))); discriminate Hr.
Qed.

(** [GET ?id=1] and [PUT /1] on the two routes use the same key. *)
Lemma cache_key_is_deterministic_witness :
  stringified (read_query (JStr "1") JUndefined) = id_key (JStr "1")
  /\ exists new,
       log (snd (updateBusDetails (RC := redis_up) (PP := pg_pool)
                   (PUT "1" (JObj [("route_no", JStr "A2")])) start))
         = new
       /\ only_command ["DEL"; id_key (JStr "1")] new.
Proof.
  pose proof (cache_key_is_deterministic
                (RC := redis_up) (PP := pg_pool) (JP := parser)
                start (ById "1")) as (_ & Hwrite & Hsame).
  split.
  - exact (Hsame (GET [("id", JStr "1")])
             (PUT "1" (JObj [("route_no", JStr "A2")])) eq_refl eq_refl).
  - exact (proj1 (Hwrite (PUT "1" (JObj [("route_no", JStr "A2")])) eq_refl)).
Defined.

(** *** Facts about the reference engines *)

Section Keyspace.

Variable down : command -> bool.

Implicit Types (m : keyspace) (key : string).

Lemma del_outcome key m :
  snd (redis_del (RedisClient := redis_client down) key m) = m
  \/ snd (redis_del (RedisClient := redis_client down) key m) = delete key m.
Proof. cbn. destruct (down DEL); [left | right]; reflexivity. Qed.

Lemma del_executed key m :
  down DEL = false ->
  exists n, redis_del (RedisClient := redis_client down) key m = (Ok n, delete key m).
Proof. intros Hup. cbn. rewrite Hup. eauto. Qed.

(** A command leaves every other key as it was. *)
Lemma del_frame key key' m :
  key' <> key ->
  snd (redis_del (RedisClient := redis_client down) key m) !! key' = m !! key'.
Proof.
  intros Hne. destruct (del_outcome key m) as [-> | ->]; [reflexivity|].
  apply lookup_delete_ne. congruence.
Qed.

End Keyspace.

(** The key of an identifier is never the key of a route number. *)
Lemma id_key_is_not_route_number_key (id route_number : jsval) :
  route_number_key route_number <> id_key id.
Proof.
  unfold route_number_key, id_key, stringified. cbn. intros E. discriminate E.
Qed.

(** *** Invalidation touches one key *)

(** C9.  An update or a delete sends the cache one command at most, the
    DEL of the key serialized from [{id: String(id)}].  On the reference
    keyspace every other key keeps its entry, in particular the key
    serialized from [{route_number: ..}] under which an earlier read by
    route number stored the same record; when the update succeeds and the
    DEL is executed, the keyspace afterwards is the one before without the
    identifier's key. *)
Theorem only_the_identifier_key_is_invalidated
    {P : Type} {PP : PgPool P} (down : command -> bool)
    (req : request) (w : world keyspace P) :
  let id := field "id" (req_params req) in
  let after_update :=
    snd (updateBusDetails (RC := redis_client down) req w) in
  let after_delete :=
    snd (deleteBusDetails (RC := redis_client down) req w) in
  (exists new,
     log after_update = (log w ++ new)%list
     /\ only_command ["DEL"; id_key id] new)
  /\ (exists new,
     log after_delete = (log w ++ new)%list
     /\ only_command ["DEL"; id_key id] new)
  /\ (forall key,
      key <> id_key id ->
      redis after_update !! key = redis w !! key
      /\ redis after_delete !! key = redis w !! key)
  /\ (forall route_number,
      redis after_update !! route_number_key route_number
        = redis w !! route_number_key route_number
      /\ redis after_delete !! route_number_key route_number
        = redis w !! route_number_key route_number)
  /\ (forall keys values row rest p',
      truthy id = true -> truthy (req_body req) = true ->
      Object_keys (req_body req) = Ok keys ->
      Object_values (req_body req) = Ok values ->
      pool_query (update_text BUS_DATA_TABLE keys) (values ++ [id]) (pg w)
        = (Ok (row :: rest), p') ->
      truthy row = true ->
      down DEL = false ->
      redis after_update = delete (id_key id) (redis w)).
Proof.
  intros id after_update after_delete.
  destruct (update_effects (RC := redis_client down) req w)
    as (new_u & Hlog_u & Hcmd_u & Hredis_u).
  destruct (delete_effects (RC := redis_client down) req w)
    as (new_d & Hlog_d & Hcmd_d & Hredis_d).
  assert (Hframe : forall key, key <> id_key id ->
            redis after_update !! key = redis w !! key
            /\ redis after_delete !! key = redis w !! key).
  { intros key Hne. subst after_update after_delete. split.
    - destruct Hredis_u as [-> | ->]; [reflexivity | apply del_frame, Hne].
    - destruct Hredis_d as [-> | ->]; [reflexivity | apply del_frame, Hne]. }
  split; [eauto|]. split; [eauto|]. split; [exact Hframe|]. split.
  - intros route_number. apply Hframe, id_key_is_not_route_number_key.
  - intros keys values row rest p' Hid Hbody Hk Hv E Hrow Hup.
    destruct (update_row (RC := redis_client down)
                req w keys values Hid Hbody Hk Hv row rest p' E Hrow)
      as (r' & tail & Erun & _ & _ & Hok).
    destruct (del_executed down (id_key id) (redis w) Hup) as (n & Edel).
    destruct (Hok n _ Edel) as [-> _].
    subst after_update. rewrite Erun. reflexivity.
Qed.

(** After [GET ?route_number=A1] has cached route A1 under the route
    number, [PUT /1] leaves that entry in place. *)
Lemma only_the_identifier_key_is_invalidated_witness :
  let cached :=
    after (getBusDetails (RC := redis_up) (PP := pg_pool) (JP := parser)
             (GET [("route_number", JStr "A1")])) start in
  let renamed :=
    after (updateBusDetails (RC := redis_up) (PP := pg_pool)
             (PUT "1" (JObj [("route_no", JStr "A2")]))) cached in
  redis renamed !! route_number_key (JStr "A1")
    = redis cached !! route_number_key (JStr "A1")
  /\ redis renamed = delete (id_key (JStr "1")) (redis cached).
Proof.
  intros cached renamed.
  pose proof (only_the_identifier_key_is_invalidated
                (PP := pg_pool) (fun _ => false)
                (PUT "1" (JObj [("route_no", JStr "A2")])) cached)
    as (_ & _ & _ & Hroute & Hsuccess).
  split.
  - exact (proj1 (Hroute (JStr "A1"))).
  - refine (Hsuccess ["route_no"] [JStr "A2"] route_A2 []
              (Table BUS_DATA_TABLE ["id"; "route_no"] [route_A2; route_B2])
              _ _ _ _ _ _ _); reflexivity.
Defined.

(** The entry left under the route number is what the next read by route
    number is served, with the route number it had before the update. *)
Example stale_route_number_entry_is_served :
  let cached :=
    after (getBusDetails (RC := redis_up) (PP := pg_pool) (JP := parser)
             (GET [("route_number", JStr "A1")])) start in
  let renamed :=
    after (updateBusDetails (RC := redis_up) (PP := pg_pool)
             (PUT "1" (JObj [("route_no", JStr "A2")]))) cached in
  rows (pg renamed) = [route_A2; route_B2]
  /\ fst (getBusDetails (RC := redis_up) (PP := pg_pool) (JP := parser)
            (GET [("route_number", JStr "A1")]) renamed)
     = Sent (from_cache route_A1).
Proof. vm_compute. split; reflexivity. Qed.

(** *** Invalidation after an update *)

(** C4, as stated, fails.  With route A1 cached under the key of id 1,
    [PUT /1] renames the route in the store and answers 200 while the
    engine refuses the DEL; the failure is logged and absorbed, the entry
    stays, and the next [GET ?id=1] is served the route as it was before
    the update. *)
Lemma refused_invalidation_leaves_the_entry :
  let RC := redis_client del_refusing in
  let cached :=
    after (getBusDetails (RC := RC) (PP := pg_pool) (JP := parser)
             (GET [("id", JStr "1")])) start in
  let update :=
    updateBusDetails (RC := RC) (PP := pg_pool)
      (PUT "1" (JObj [("route_no", JStr "A2")])) cached in
  redis cached !! id_key (JStr "1") = Some (stringified [("id", JNum 1); ("route_no", JStr "A1")], 3600)
  /\ fst update = Sent (updated route_A2)
  /\ rows (pg (snd update)) = [route_A2; route_B2]
  /\ redis (snd update) !! id_key (JStr "1") = redis cached !! id_key (JStr "1")
  /\ fst (getBusDetails (RC := RC) (PP := pg_pool) (JP := parser)
            (GET [("id", JStr "1")]) (snd update))
     = Sent (from_cache route_A1).
Proof. vm_compute. repeat split. Qed.

(** C4, amended.  When an update succeeds (the UPDATE returns the row)
    and the engine executes the DEL, the statement is sent before the DEL,
    the keyspace afterwards is the one before without the key of the
    identifier, a [get] of that key returns [null], and a following read
    of that identifier is not served from the cache. *)
Theorem update_invalidates_the_identifier_key
    {P : Type} {PP : PgPool P} {JP : JsonParser} (down : command -> bool)
    (req : request) (w : world keyspace P)
    (keys : list string) (values : list jsval) (row : jsval)
    (rest : list jsval) (p' : P) :
  let id := field "id" (req_params req) in
  let text := update_text BUS_DATA_TABLE keys in
  let params := (values ++ [id])%list in
  let run := updateBusDetails (RC := redis_client down) req w in
  truthy id = true ->
  truthy (req_body req) = true ->
  Object_keys (req_body req) = Ok keys ->
  Object_values (req_body req) = Ok values ->
  pool_query text params (pg w) = (Ok (row :: rest), p') ->
  truthy row = true ->
  down DEL = false ->
  fst run = Sent (updated row)
  /\ log (snd run) =
       (log w ++ [EvQuery text params; EvRedis ["DEL"; id_key id];
                  audit_line (id_key id)])%list
  /\ pg (snd run) = p'
  /\ redis (snd run) = delete (id_key id) (redis w)
  /\ redis (snd run) !! id_key id = None
  /\ fst (cache_get (RC := redis_client down) (id_key id) (snd run)) = Ok JNull
  /\ (forall read x,
      read_selector read = Some (ById (ToString id)) ->
      fst (getBusDetails (RC := redis_client down) read (snd run))
        <> Sent (from_cache x)).
Proof.
  intros id text params run Hid Hbody Hk Hv E Hrow Hup.
  destruct (update_row (RC := redis_client down)
              req w keys values Hid Hbody Hk Hv row rest p' E Hrow)
    as (r' & tail & Erun & _ & _ & Hok).
  destruct (del_executed down (id_key id) (redis w) Hup) as (n & Edel).
  destruct (Hok n _ Edel) as [-> ->].
  subst run. fold id text params in Erun. rewrite Erun. cbn [fst snd log pg redis].
  set (w' := World (delete (id_key id) (redis w)) p' _).
  assert (Hmiss : exists w1, cache_get (RC := redis_client down) (id_key id) w'
                             = (Ok JNull, w1)).
  { destruct (down Ref.GET) eqn:Hget.
    - eexists. apply cache_get_failure. cbn. rewrite Hget. reflexivity.
    - eexists. apply cache_get_absent. cbn. rewrite Hget.
      rewrite lookup_delete_eq. reflexivity. }
  destruct Hmiss as (w1 & Hmiss).
  split; [reflexivity|]. split; [reflexivity|]. split; [reflexivity|].
  split; [reflexivity|]. split; [apply lookup_delete_eq|].
  split; [rewrite Hmiss; reflexivity|].
  intros read x Hs. unfold read_selector in Hs.
  destruct (truthy (field "id" (req_query read))) eqn:Hrid.
  - injection Hs as Hs.
    apply (get_not_served (RC := redis_client down) read w' JNull w1 (or_introl Hrid));
      [|reflexivity].
    rewrite (read_query_by_id _ _ Hrid), Hs. exact Hmiss.
  - destruct (truthy (field "route_number" (req_query read))); discriminate Hs.
Qed.

(** [PUT /1] after [GET ?id=1] on the two routes, the engine in good
    health: the next [GET ?id=1] reads the renamed route from the store. *)
Lemma update_invalidates_the_identifier_key_witness :
  let cached :=
    after (getBusDetails (RC := redis_up) (PP := pg_pool) (JP := parser)
             (GET [("id", JStr "1")])) start in
  let run :=
    updateBusDetails (RC := redis_up) (PP := pg_pool)
      (PUT "1" (JObj [("route_no", JStr "A2")])) cached in
  fst run = Sent (updated route_A2)
  /\ redis (snd run) !! id_key (JStr "1") = None
  /\ forall x,
       fst (getBusDetails (RC := redis_up) (PP := pg_pool) (JP := parser)
              (GET [("id", JStr "1")]) (snd run))
         <> Sent (from_cache x).
Proof.
  intros cached run.
  pose proof (update_invalidates_the_identifier_key
                (PP := pg_pool) (JP := parser) (fun _ => false)
                (PUT "1" (JObj [("route_no", JStr "A2")])) cached
                ["route_no"] [JStr "A2"] route_A2 []
                (Table BUS_DATA_TABLE ["id"; "route_no"] [route_A2; route_B2])
                eq_refl eq_refl eq_refl eq_refl eq_refl eq_refl eq_refl)
    as (Hsent & _ & _ & _ & Hnone & _ & Hnext).
  split; [exact Hsent|]. split; [exact Hnone|].
  intros x. exact (Hnext (GET [("id", JStr "1")]) x eq_refl).
Defined.

(** *** The statements on the reference store *)

Section Store.

Implicit Types (t : table) (v : jsval).


Lemma run_delete t v :
  run_statement (delete_text (table_name t)) [v] t
  = (Ok [],
     with_rows t
       (List.filter (fun r => negb (sql_equal (column "id" r) v)) (rows t))).
Proof.
  unfold run_statement.
  replace (String.eqb (delete_text (table_name t)) (select_page_text (table_name t)))
    with false by reflexivity.
  replace (String.eqb (delete_text (table_name t)) (select_by_id_text (table_name t)))
    with false by reflexivity.
  replace (String.eqb (delete_text (table_name t))
             (select_by_route_no_text (table_name t)))
    with false by reflexivity.
  rewrite String.eqb_refl. reflexivity.
Qed.

End Store.

(** *** Deleting a record *)

(** C1 (the code departs from it).  On the store, a DELETE without
    RETURNING yields no rows, so [delete(id)] returns [false] for every id,
    also when it has just removed the rows with that id; and
    [DELETE /v1/bus/:id] answers 404 after removing the record, without
    touching the cache. *)
Theorem delete_never_reports_a_removal
    {R : Type} {RC : RedisClient R} (req : request) (w : world R table) :
  let id := field "id" (req_params req) in
  let name := table_name (pg w) in
  let remaining :=
    List.filter (fun r => negb (sql_equal (column "id" r) id)) (rows (pg w)) in
  let w' :=
    World (redis w) (with_rows (pg w) remaining)
      (log w ++ [EvQuery (delete_text name) [id]]) in
  repo_delete (PP := pg_pool) name id w = (Ok false, w')
  /\ (name = BUS_DATA_TABLE ->
      truthy id = true ->
      deleteBusDetails (PP := pg_pool) req w = (Sent not_found, w')
      /\ status not_found = 404).
Proof.
  intros id name remaining w'.
  assert (E : pool_query (PgPool := pg_pool) (delete_text name) [id] (pg w)
              = (Ok [], with_rows (pg w) remaining))
    by apply run_delete.
  split.
  - rewrite repo_delete_run, (db_query_rows _ _ _ _ _ E). reflexivity.
  - intros Hname Hid. split; [|reflexivity]. rewrite Hname in E.
    rewrite (delete_no_row (PP := pg_pool) req w Hid _ E).
    subst w'. rewrite Hname. reflexivity.
Qed.

(** [DELETE /1] on the two routes: route A1 is removed, the answer is
    404. *)
Lemma delete_never_reports_a_removal_witness :
  In route_A1 (rows (pg start))
  /\ exists w',
       deleteBusDetails (RC := redis_up) (PP := pg_pool) (DELETE "1") start
         = (Sent not_found, w')
       /\ rows (pg w') = [route_B2].
Proof.
  split; [left; reflexivity|].
  eexists. split.
  - apply (delete_never_reports_a_removal (RC := redis_up) (DELETE "1") start);
      reflexivity.
  - reflexivity.
Defined.

(** *** Pages *)



(** *** Field names in the statements *)

Lemma append_assoc (a b c : string) : (a ++ b) ++ c = a ++ b ++ c.
Proof.
  induction a as [|x a IH]; [reflexivity|].
  change (String x ((a ++ b) ++ c) = String x (a ++ b ++ c)). congruence.
Qed.

Lemma append_empty_r (a : string) : a ++ "" = a.
Proof.
  induction a as [|x a IH]; [reflexivity|].
  change (String x (a ++ "") = String x a). congruence.
Qed.

Lemma occurs_refl (part : string) : occurs part part.
Proof. exists "", "". rewrite append_empty_r. reflexivity. Qed.

Lemma occurs_here (part after : string) : occurs part (part ++ after).
Proof. exists "", after. reflexivity. Qed.

Lemma occurs_after (part whole before : string) :
  occurs part whole -> occurs part (before ++ whole).
Proof.
  intros (b & a & ->). exists (before ++ b), a. rewrite !append_assoc. reflexivity.
Qed.

Lemma occurs_before (part whole after : string) :
  occurs part whole -> occurs part (whole ++ after).
Proof.
  intros (b & a & ->). exists b, (a ++ after). rewrite !append_assoc. reflexivity.
Qed.

Lemma occurs_in_join (sep name : string) (parts : list string) :
  (exists part, In part parts /\ occurs name part) ->
  occurs name (join sep parts).
Proof.
  induction parts as [|p rest IH]; intros (part & Hin & Hocc); [destruct Hin|].
  destruct rest as [|q rest].
  - destruct Hin as [-> | []]. exact Hocc.
  - change (join sep (p :: q :: rest)) with (p ++ sep ++ join sep (q :: rest)).
    destruct Hin as [-> | Hin].
    + destruct Hocc as (b & a & ->). exists b, (a ++ sep ++ join sep (q :: rest)).
      rewrite !append_assoc. reflexivity.
    + destruct (IH (ex_intro _ part (conj Hin Hocc))) as (b & a & ->).
      exists (p ++ sep ++ b), a. rewrite !append_assoc. reflexivity.
Qed.

Lemma assignment_of_each_key (name : string) (keys : list string) (index : nat) :
  In name keys ->
  exists part, In part (assignments_from index keys) /\ occurs name part.
Proof.
  revert index. induction keys as [|key rest IH]; intros index []; cbn.
  - subst key. eexists. split; [left; reflexivity | apply occurs_here].
  - destruct (IH (S index) H) as (part & Hin & Hocc). eauto.
Qed.

(** C5, as stated, fails.  [colour] is not a column of the table and
    [route_no = 'X', id] is not a name at all, yet [update] and [create]
    splice each into the statement they send to the store. *)
Lemma unknown_field_names_reach_the_store :
  ~ In "colour" (columns bus_routes)
  /\ log (snd (repo_update (PP := pg_pool) BUS_DATA_TABLE (JStr "1")
                 (JObj [("colour", JStr "red")]) start))
     = [EvQuery "UPDATE bus_routes SET colour = $1 WHERE id = $2 RETURNING *"
          [JStr "red"; JStr "1"];
        error_line "[DBService] Error executing query:" rejected_statement]
  /\ hd_error
       (log (snd (repo_update (PP := pg_pool) BUS_DATA_TABLE (JStr "1")
                    (JObj [("route_no = 'X', id", JNum 2)]) start)))
     = Some
         (EvQuery
            "UPDATE bus_routes SET route_no = 'X', id = $1 WHERE id = $2 RETURNING *"
            [JNum 2; JStr "1"])
  /\ hd_error
       (log (snd (repo_create (PP := pg_pool) BUS_DATA_TABLE
                    (JObj [("colour", JStr "red")]) start)))
     = Some
         (EvQuery "INSERT INTO bus_routes (colour) VALUES ($1) RETURNING *"
            [JStr "red"]).
Proof.
  split; [|vm_compute; repeat split].
  cbn. intros [E|[E|[]]]; discriminate E.
Qed.

(** C5, amended.  [create(data)] and [update(id, data)] check no field
    name: whatever the names of the payload, the statement is built from
    them and sent, each name occurring in its text as the caller gave it;
    the values, and the id, travel as positional parameters. *)
Theorem field_names_are_interpolated_unchecked
    {R P : Type} {PP : PgPool P} (w : world R P)
    (tableName : string) (id : jsval) (fields : list (string * jsval)) :
  let names := map fst fields in
  let values := map snd fields in
  let insert := insert_text tableName names (List.length values) in
  let update := update_text tableName names in
  (exists tail,
     log (snd (repo_create tableName (JObj fields) w))
       = (log w ++ EvQuery insert values :: tail)%list)
  /\ (exists tail,
     log (snd (repo_update tableName id (JObj fields) w))
       = (log w ++ EvQuery update (values ++ [id]) :: tail)%list)
  /\ (forall name, In name names -> occurs name insert /\ occurs name update).
Proof.
  intros names values insert update. split; [|split].
  - unfold repo_create. cbn [Object_keys Object_values].
    unfold bind at 1, lift_result at 1. unfold bind at 1, lift_result at 1.
    unfold bind, ret. fold names values insert.
    destruct (db_query_effects insert values w) as (tail & Hlog & _).
    exists tail. destruct (db_query insert values w) as [[rows|e] w']; exact Hlog.
  - unfold repo_update. cbn [Object_keys Object_values].
    unfold bind at 1, lift_result at 1. unfold bind at 1, lift_result at 1.
    unfold bind, ret. fold names values update.
    destruct (db_query_effects update (values ++ [id]) w) as (tail & Hlog & _).
    exists tail. destruct (db_query update (values ++ [id]) w) as [[rows|e] w'];
      exact Hlog.
  - intros name Hin. split.
    + unfold insert, insert_text. do 3 apply occurs_after. apply occurs_before.
      apply occurs_in_join. exists name. split; [exact Hin | apply occurs_refl].
    + unfold update, update_text. do 3 apply occurs_after. apply occurs_before.
      apply occurs_in_join. apply assignment_of_each_key. exact Hin.
Qed.

(** The payload [{colour: "red"}] on the two routes. *)
Lemma field_names_are_interpolated_unchecked_witness :
  occurs "colour" (insert_text BUS_DATA_TABLE ["colour"] 1)
  /\ occurs "colour" (update_text BUS_DATA_TABLE ["colour"]).
Proof.
  refine (proj2 (proj2 (field_names_are_interpolated_unchecked (PP := pg_pool)
            start BUS_DATA_TABLE (JStr "1") [("colour", JStr "red")]))
            "colour" _).
  left. reflexivity.
Defined.

(* ===================================================================== *)
(** ** Further properties of the handlers *)
(* ===================================================================== *)

Section Outcomes.

Context {R P : Type} {RC : RedisClient R} {PP : PgPool P} {JP : JsonParser}.

Implicit Types (w : world R P) (req : request).

(** Every way [getBusDetails] can end. *)
Lemma get_cases req w :
  let id := field "id" (req_query req) in
  let route_number := field "route_number" (req_query req) in
  let out := fst (getBusDetails req w) in
  (truthy id = false /\ truthy route_number = false
   /\ getBusDetails req w = (Sent bad_read, w))
  \/ ((truthy id = true \/ truthy route_number = true)
      /\ ((exists v, out = Sent (from_cache v) /\ truthy v = true)
          \/ (exists b, out = Sent (from_store b))
          \/ (exists e, out = Next e))).
Proof.
  intros id route_number out. subst out.
  destruct (truthy id) eqn:Hid; [|destruct (truthy route_number) eqn:Hrn].
  - right. split; [left; reflexivity|].
    assert (Hsel : truthy id = true \/ truthy route_number = true) by (left; exact Hid).
    destruct (cache_get_completes (stringified (read_query id route_number)) w)
      as (v & r1 & tail1 & Ecache & _).
    destruct (truthy v) eqn:Hv.
    + left. exists v. rewrite (get_hit req w Hsel v _ Ecache Hv).
      split; [reflexivity | exact Hv].
    + right. rewrite (get_miss req w Hsel v _ Ecache Hv).
      destruct (fetchBusDetails _ _) as [[b|e] w2]; [left | right]; eauto.
  - right. split; [right; reflexivity|].
    assert (Hsel : truthy id = true \/ truthy route_number = true) by (right; exact Hrn).
    destruct (cache_get_completes (stringified (read_query id route_number)) w)
      as (v & r1 & tail1 & Ecache & _).
    destruct (truthy v) eqn:Hv.
    + left. exists v. rewrite (get_hit req w Hsel v _ Ecache Hv).
      split; [reflexivity | exact Hv].
    + right. rewrite (get_miss req w Hsel v _ Ecache Hv).
      destruct (fetchBusDetails _ _) as [[b|e] w2]; [left | right]; eauto.
  - left. split; [reflexivity|]. split; [reflexivity|].
    apply get_bad_request; assumption.
Qed.

(** Every way [updateBusDetails] can end: with the row the UPDATE
    returned, or without a word to the cache. *)
Lemma update_cases req w :
  let out := fst (updateBusDetails req w) in
  let w' := snd (updateBusDetails req w) in
  exists new,
    log w' = (log w ++ new)%list
    /\ ((exists row, out = Sent (updated row) /\ truthy row = true)
        \/ ((out = Sent bad_update \/ out = Sent not_found \/ exists e, out = Next e)
            /\ redis w' = redis w /\ no_command new)).
Proof.
  intros out w'. subst out w'.
  set (id := field "id" (req_params req)).
  assert (Hbad : truthy id = false \/ truthy (req_body req) = false ->
            exists new,
              log (snd (updateBusDetails req w)) = (log w ++ new)%list
              /\ ((exists row, fst (updateBusDetails req w) = Sent (updated row)
                               /\ truthy row = true)
                  \/ ((fst (updateBusDetails req w) = Sent bad_update
                       \/ fst (updateBusDetails req w) = Sent not_found
                       \/ exists e, fst (updateBusDetails req w) = Next e)
                      /\ redis (snd (updateBusDetails req w)) = redis w
                      /\ no_command new))).
  { intros H. rewrite (update_bad_request req w H). exists []. cbn.
    rewrite app_nil_r. split; [reflexivity|]. right.
    split; [left; reflexivity|]. split; [reflexivity | intros c []]. }
  destruct (truthy id) eqn:Hid; [|apply Hbad; left; reflexivity].
  destruct (truthy (req_body req)) eqn:Hbody; [|apply Hbad; right; reflexivity].
  clear Hbad.
  destruct (truthy_payload _ Hbody) as (keys & values & Hk & Hv).
  destruct (pool_query (update_text BUS_DATA_TABLE keys) (values ++ [id]) (pg w))
    as [[rows|e] p'] eqn:E.
  - assert (Hcases : match rows with [] => True | row :: _ => truthy row = false end
                     \/ exists row rest, rows = row :: rest /\ truthy row = true).
    { destruct rows as [|row rest]; [left; exact I|].
      destruct (truthy row) eqn:Hrow; [right; eauto | left; reflexivity]. }
    destruct Hcases as [Hnone | (row & rest & -> & Hrow)].
    + rewrite (update_no_row req w keys values Hid Hbody Hk Hv rows p' E Hnone).
      eexists. cbn [fst snd log redis]. split; [reflexivity|]. right.
      split; [right; left; reflexivity|]. split; [reflexivity|].
      intros c [Hin|[]]. discriminate Hin.
    + destruct (update_row req w keys values Hid Hbody Hk Hv row rest p' E Hrow)
        as (r' & tail & Erun & _).
      rewrite Erun. eexists. cbn [fst snd log]. split; [reflexivity|]. left. eauto.
  - rewrite (update_store_error req w keys values Hid Hbody Hk Hv e p' E).
    eexists. cbn [fst snd log redis]. split; [reflexivity|]. right.
    split; [right; right; eauto|]. split; [reflexivity|].
    intros c [Hin|[Hin|[]]]; discriminate Hin.
Qed.

(** Every way [deleteBusDetails] can end. *)
Lemma delete_cases req w :
  let out := fst (deleteBusDetails req w) in
  let w' := snd (deleteBusDetails req w) in
  exists new,
    log w' = (log w ++ new)%list
    /\ (out = Sent deleted
        \/ ((out = Sent bad_delete \/ out = Sent not_found \/ exists e, out = Next e)
            /\ redis w' = redis w /\ no_command new)).
Proof.
  intros out w'. subst out w'.
  set (id := field "id" (req_params req)).
  destruct (truthy id) eqn:Hid.
  2:{ rewrite (delete_bad_request req w Hid). exists []. cbn.
      rewrite app_nil_r. split; [reflexivity|]. right.
      split; [left; reflexivity|]. split; [reflexivity | intros c []]. }
  destruct (pool_query (delete_text BUS_DATA_TABLE) [id] (pg w))
    as [[[|row rest]|e] p'] eqn:E.
  - rewrite (delete_no_row req w Hid p' E). eexists. cbn [fst snd log redis].
    split; [reflexivity|]. right. split; [right; left; reflexivity|].
    split; [reflexivity|]. intros c [Hin|[]]. discriminate Hin.
  - pose proof (delete_first_row req w Hid row rest p' E) as Hrow.
    destruct (get_prop row "affectedRows") as [affected|e].
    + destruct Hrow as [[_ Erun] | [_ (r' & tail & Erun & _)]]; rewrite Erun;
        eexists; cbn [fst snd log redis]; (split; [reflexivity|]).
      * right. split; [right; left; reflexivity|]. split; [reflexivity|].
        intros c [Hin|[]]. discriminate Hin.
      * left. reflexivity.
    + rewrite Hrow. eexists. cbn [fst snd log redis]. split; [reflexivity|].
      right. split; [right; right; eauto|]. split; [reflexivity|].
      intros c [Hin|[]]. discriminate Hin.
  - rewrite (delete_store_error req w Hid e p' E).
    eexists. cbn [fst snd log redis]. split; [reflexivity|]. right.
    split; [right; right; eauto|]. split; [reflexivity|].
    intros c [Hin|[Hin|[]]]; discriminate Hin.
Qed.

End Outcomes.

(** *** How a read ends *)

(** X1.  A read that is answered is answered 400 or 200, never 404: 400
    exactly when neither selector is truthy, the state being left as it
    was; otherwise 200, from the cache with a truthy value (a cached
    [null] is never served) or from the store. *)
Theorem read_is_answered_400_or_200
    {R P : Type} {RC : RedisClient R} {PP : PgPool P} {JP : JsonParser}
    (req : request) (w : world R P) (r : response) :
  let id := field "id" (req_query req) in
  let route_number := field "route_number" (req_query req) in
  fst (getBusDetails req w) = Sent r ->
  status r <> 404
  /\ ((truthy id = false /\ truthy route_number = false
       /\ r = bad_read /\ snd (getBusDetails req w) = w)
      \/ ((truthy id = true \/ truthy route_number = true)
          /\ status r = 200
          /\ ((exists v, r = from_cache v /\ truthy v = true)
              \/ exists b, r = from_store b))).
Proof.
  intros id route_number Hsent.
  destruct (get_cases req w) as [(Hid & Hrn & Erun) | (Hsel & Hout)].
  - rewrite Erun in Hsent |- *. injection Hsent as <-.
    split; [discriminate|]. left. repeat split; assumption.
  - rewrite Hsent in Hout.
    destruct Hout as [(v & E & Hv) | [(b & E) | (e & E)]]; [| |discriminate E].
    + injection E as ->. split; [discriminate|]. right.
      split; [exact Hsel|]. split; [reflexivity|]. left. eauto.
    + injection E as ->. split; [discriminate|]. right.
      split; [exact Hsel|]. split; [reflexivity|]. right. eauto.
Qed.

(** [GET ?id=1] on the two routes is answered from the store. *)
Lemma read_is_answered_400_or_200_witness :
  status (from_store route_A1) <> 404
  /\ ((truthy (JStr "1") = false /\ truthy JUndefined = false
       /\ from_store route_A1 = bad_read
       /\ snd (getBusDetails (RC := redis_up) (PP := pg_pool) (JP := parser)
                 (GET [("id", JStr "1")]) start) = start)
      \/ ((truthy (JStr "1") = true \/ truthy JUndefined = true)
          /\ status (from_store route_A1) = 200
          /\ ((exists v, from_store route_A1 = from_cache v /\ truthy v = true)
              \/ exists b, from_store route_A1 = from_store b))).
Proof.
  apply (read_is_answered_400_or_200 (RC := redis_up) (PP := pg_pool) (JP := parser)
           (GET [("id", JStr "1")]) start (from_store route_A1)).
  reflexivity.
Defined.

(** *** A store error during a read *)

(** X2.  When the cache has nothing under the key and the SELECT raises,
    the read hands that error to [next]: nothing is written to the cache,
    and the only console line is the one of [DBService.query], the [catch]
    of [fetchBusDetails] being out of reach of the un-awaited call. *)
Theorem store_error_on_read_goes_to_next
    {R P : Type} {RC : RedisClient R} {PP : PgPool P} {JP : JsonParser}
    (req : request) (w : world R P) (e : exn) (r' : R) (p' : P) :
  let id := field "id" (req_query req) in
  let route_number := field "route_number" (req_query req) in
  let by_id := select_by_id_text BUS_DATA_TABLE in
  let by_route_no := select_by_route_no_text BUS_DATA_TABLE in
  (truthy id = true ->
   ToString id <> "" ->
   redis_get (id_key id) (redis w) = (Ok None, r') ->
   pool_query by_id [JStr (ToString id)] (pg w) = (Throw e, p') ->
   getBusDetails req w =
     (Next e,
      World r' p'
        (log w ++ [EvRedis ["GET"; id_key id];
                   EvQuery by_id [JStr (ToString id)];
                   error_line "[DBService] Error executing query:" e])))
  /\ (truthy id = false ->
      truthy route_number = true ->
      ToString route_number <> "" ->
      redis_get (route_number_key route_number) (redis w) = (Ok None, r') ->
      pool_query by_route_no [JStr (ToString route_number)] (pg w) = (Throw e, p') ->
      getBusDetails req w =
        (Next e,
         World r' p'
           (log w ++ [EvRedis ["GET"; route_number_key route_number];
                      EvQuery by_route_no [JStr (ToString route_number)];
                      error_line "[DBService] Error executing query:" e]))).
Proof.
  intros id route_number by_id by_route_no. split.
  - intros Hid Hs Eget Equery.
    pose proof (cache_get_absent _ w r' Eget) as Ecache.
    pose proof (get_miss req w (or_introl Hid) JNull) as Hrun. cbv zeta in Hrun.
    fold id in Hrun. rewrite (read_query_by_id _ _ Hid) in Hrun.
    fold (id_key id) in Hrun. rewrite (Hrun _ Ecache eq_refl). clear Hrun.
    rewrite fetchBusDetails_run. cbn [field String.eqb Ascii.eqb Bool.eqb].
    apply truthy_JStr in Hs. rewrite Hs. unfold repo_getById.
    rewrite db_getOne_run. fold by_id.
    rewrite (db_query_error by_id _ (World r' (pg w) _) e p' Equery).
    cbn [log redis]. rewrite <- app_assoc. reflexivity.
  - intros Hid Hrn Hs Eget Equery.
    pose proof (cache_get_absent _ w r' Eget) as Ecache.
    pose proof (get_miss req w (or_intror Hrn) JNull) as Hrun. cbv zeta in Hrun.
    fold route_number in Hrun. rewrite (read_query_by_route_number _ _ Hid) in Hrun.
    fold (route_number_key route_number) in Hrun.
    rewrite (Hrun _ Ecache eq_refl). clear Hrun.
    rewrite fetchBusDetails_run. cbn [field String.eqb Ascii.eqb Bool.eqb].
    change (truthy JUndefined) with false. cbv iota.
    apply truthy_JStr in Hs. rewrite Hs. unfold repo_getByRouteNo.
    rewrite db_getOne_run. fold by_route_no.
    rewrite (db_query_error by_route_no _ (World r' (pg w) _) e p' Equery).
    cbn [log redis]. rewrite <- app_assoc. reflexivity.
Qed.

(** [GET ?id=1] while the store cannot be reached. *)
Lemma store_error_on_read_goes_to_next_witness :
  getBusDetails (RC := redis_up) (PP := Faults.pg_unreachable) (JP := parser)
    (GET [("id", JStr "1")]) start =
    (Next Faults.connection_refused,
     World ∅ bus_routes
       [EvRedis ["GET"; id_key (JStr "1")];
        EvQuery (select_by_id_text BUS_DATA_TABLE) [JStr "1"];
        error_line "[DBService] Error executing query:" Faults.connection_refused]).
Proof.
  apply (proj1 (store_error_on_read_goes_to_next
                  (RC := redis_up) (PP := Faults.pg_unreachable) (JP := parser)
                  (GET [("id", JStr "1")]) start Faults.connection_refused
                  ∅ bus_routes)).
  - reflexivity.
  - discriminate.
  - reflexivity.
  - reflexivity.
Defined.

(** *** An identifier whose text is empty *)

Lemma num_to_string_not_empty (n : Z) : num_to_string n <> "".
Proof.
  unfold num_to_string. destruct (Z.to_int n) as [d|d]; [|discriminate].
  destruct d; discriminate.
Qed.

(** Among truthy values, only an array has the empty string as its
    text. *)
Lemma truthy_with_empty_text (v : jsval) :
  truthy v = true -> ToString v = "" -> exists elems, v = JArr elems.
Proof.
  destruct v as [| |[]|n|s|elems|fields]; cbn [truthy ToString]; intros Ht Hs;
    try discriminate; eauto.
  - destruct (num_to_string_not_empty n Hs).
  - subst s. discriminate Ht.
Qed.

(** X3.  The one read that raises [Bus details not found]: a truthy [id]
    whose [String(id)] is empty, which only an array can be (the query
    string [?id[]=], say).  With nothing served from the cache, no
    statement is sent to the store, nothing is written to the cache, the
    error is logged by [fetchBusDetails] and handed to [next], and a
    [route_number] in the same request is not looked at. *)
Theorem empty_identifier_text_raises_not_found
    {R P : Type} {RC : RedisClient R} {PP : PgPool P} {JP : JsonParser}
    (req : request) (w : world R P) (r' : R) :
  let id := field "id" (req_query req) in
  truthy id = true ->
  ToString id = "" ->
  redis_get (id_key id) (redis w) = (Ok None, r') ->
  (exists elems, id = JArr elems)
  /\ getBusDetails req w =
       (Next no_bus,
        World r' (pg w)
          (log w ++ [EvRedis ["GET"; id_key id];
                     error_line "Failed to fetch bus details from database:" no_bus])).
Proof.
  intros id Hid Hs Eget. split; [exact (truthy_with_empty_text id Hid Hs)|].
  pose proof (cache_get_absent _ w r' Eget) as Ecache.
  pose proof (get_miss req w (or_introl Hid) JNull) as Hrun. cbv zeta in Hrun.
  fold id in Hrun. rewrite (read_query_by_id _ _ Hid) in Hrun.
  fold (id_key id) in Hrun. rewrite (Hrun _ Ecache eq_refl). clear Hrun.
  rewrite fetchBusDetails_run. cbn [field String.eqb Ascii.eqb Bool.eqb].
  rewrite Hs. change (truthy (JStr "")) with false.
  change (truthy JUndefined) with false. cbv iota.
  cbn [log redis pg]. rewrite <- app_assoc. reflexivity.
Qed.

(** [GET ?id[]=&route_number=A1] on the two routes. *)
Lemma empty_identifier_text_raises_not_found_witness :
  (exists elems, JArr [JStr ""] = JArr elems)
  /\ getBusDetails (RC := redis_up) (PP := pg_pool) (JP := parser)
       (GET [("id", JArr [JStr ""]); ("route_number", JStr "A1")]) start =
       (Next no_bus,
        World ∅ bus_routes
          [EvRedis ["GET"; id_key (JArr [JStr ""])];
           error_line "Failed to fetch bus details from database:" no_bus]).
Proof.
  apply (empty_identifier_text_raises_not_found
           (RC := redis_up) (PP := pg_pool) (JP := parser)
           (GET [("id", JArr [JStr ""]); ("route_number", JStr "A1")]) start ∅);
    reflexivity.
Defined.

(** *** Writes and the cache *)

(** X4.  An update or a delete sends the cache a command only when it
    answers 200: a request answered 400 or 404, or ended by an error of
    the store, leaves the engine as it was and sends it nothing. *)
Theorem cache_is_untouched_unless_the_write_succeeds
    {R P : Type} {RC : RedisClient R} {PP : PgPool P}
    (req : request) (w : world R P) :
  ((exists row, fst (updateBusDetails req w) = Sent (updated row))
   \/ (redis (snd (updateBusDetails req w)) = redis w
       /\ exists new,
            log (snd (updateBusDetails req w)) = (log w ++ new)%list
            /\ no_command new))
  /\ (fst (deleteBusDetails req w) = Sent deleted
      \/ (redis (snd (deleteBusDetails req w)) = redis w
          /\ exists new,
               log (snd (deleteBusDetails req w)) = (log w ++ new)%list
               /\ no_command new)).
Proof.
  split.
  - destruct (update_cases req w) as (new & Hlog & [(row & E & _) | (_ & Hr & Hn)]);
      [left | right]; eauto.
  - destruct (delete_cases req w) as (new & Hlog & [E | (_ & Hr & Hn)]);
      [left | right]; eauto.
Qed.

(** *** The envelope *)

(** X5.  Whatever a handler sends, the envelope is coherent: [success] is
    [true] exactly with status 200, and a 400 or a 404 carries [null] as
    data.  An update answers 200 only with a truthy row, a delete only
    with [true]. *)
Theorem envelopes_are_coherent
    {R P : Type} {RC : RedisClient R} {PP : PgPool P} {JP : JsonParser}
    (req : request) (w : world R P) (r : response) :
  fst (getBusDetails req w) = Sent r
  \/ fst (updateBusDetails req w) = Sent r
  \/ fst (deleteBusDetails req w) = Sent r ->
  ((status r = 200 /\ success r = true)
   \/ ((status r = 400 \/ status r = 404) /\ success r = false /\ data r = JNull))
  /\ (fst (updateBusDetails req w) = Sent r -> status r = 200 -> truthy (data r) = true)
  /\ (fst (deleteBusDetails req w) = Sent r -> status r = 200 -> data r = JBool true).
Proof.
  intros Hsent. split; [|split].
  - destruct Hsent as [Hget | [Hupdate | Hdelete]].
    + destruct (get_cases req w) as [(_ & _ & Erun) | (_ & Hout)].
      * rewrite Erun in Hget. injection Hget as <-. right. cbn. auto.
      * rewrite Hget in Hout.
        destruct Hout as [(v & E & _) | [(b & E) | (e & E)]];
          [injection E as -> | injection E as -> | discriminate E];
          left; split; reflexivity.
    + destruct (update_cases req w) as (new & _ & Hout). rewrite Hupdate in Hout.
      destruct Hout as [(row & E & _) | ([E | [E | (e & E)]] & _)];
        try discriminate E; injection E as ->; cbn; auto.
    + destruct (delete_cases req w) as (new & _ & Hout). rewrite Hdelete in Hout.
      destruct Hout as [E | ([E | [E | (e & E)]] & _)];
        try discriminate E; injection E as ->; cbn; auto.
  - intros Hupdate Hstatus.
    destruct (update_cases req w) as (new & _ & Hout). rewrite Hupdate in Hout.
    destruct Hout as [(row & E & Hrow) | ([E | [E | (e & E)]] & _)];
      try discriminate E; injection E as ->; try discriminate Hstatus.
    exact Hrow.
  - intros Hdelete Hstatus.
    destruct (delete_cases req w) as (new & _ & Hout). rewrite Hdelete in Hout.
    destruct Hout as [E | ([E | [E | (e & E)]] & _)];
      try discriminate E; injection E as ->; try discriminate Hstatus.
    reflexivity.
Qed.

(** [PUT /7] on the two routes is answered 404 with [null]. *)
Lemma envelopes_are_coherent_witness :
  (status not_found = 200 /\ success not_found = true)
  \/ ((status not_found = 400 \/ status not_found = 404)
      /\ success not_found = false /\ data not_found = JNull).
Proof.
  apply (envelopes_are_coherent (RC := redis_up) (PP := pg_pool) (JP := parser)
           (PUT "7" (JObj [("route_no", JStr "A2")])) start not_found).
  right. left. reflexivity.
Defined.

(** *** Reading through the cache *)

Lemma stringify_object (fields : list (string * jsval)) :
  JSON_stringify (JObj fields) = Some (stringified fields).
Proof. reflexivity. Qed.

Lemma stringified_not_empty (fields : list (string * jsval)) :
  stringified fields <> "".
Proof. intros E. discriminate E. Qed.

Lemma cache_put_up {P : Type} (key : string) (value : jsval) (ttl : Z)
    (w : world keyspace P) :
  0 < ttl ->
  cache_put_ttl (RC := redis_up) key value ttl w =
    (Ok tt,
     World (<[key := (default "" (JSON_stringify value), ttl)]> (redis w)) (pg w)
       (log w ++ [EvRedis ["SET"; key; "EX"; num_to_string ttl]])).
Proof.
  intros Httl. unfold cache_put_ttl, try_catch, on_redis.
  change (redis_set (RedisClient := redis_up) key (JSON_stringify value) ttl (redis w))
    with (if ttl <=? 0
          then (Throw (JsError "ERR invalid expire time in 'set' command"), redis w)
          else (Ok tt, <[key := (default "" (JSON_stringify value), ttl)]> (redis w))).
  destruct (Z.leb_spec ttl 0); [lia | reflexivity].
Qed.

(** X6.  Read-through on an engine in good health.  A read by identifier
    that finds nothing under the key and a row in the store answers with
    that row and leaves it under the key, for 3600 seconds; provided
    [JSON.parse] reads the row back, the next read of that identifier is
    served the same row from the cache and sends the store nothing. *)
Theorem second_read_is_served_from_the_cache
    {P : Type} {PP : PgPool P} {JP : JsonParser}
    (req again : request) (w : world keyspace P)
    (fields : list (string * jsval)) (rest : list jsval) (p' : P) :
  let id := field "id" (req_query req) in
  let by_id := select_by_id_text BUS_DATA_TABLE in
  let first := getBusDetails (RC := redis_up) req w in
  truthy id = true ->
  ToString id <> "" ->
  redis w !! id_key id = None ->
  pool_query by_id [JStr (ToString id)] (pg w) = (Ok (JObj fields :: rest), p') ->
  JSON_parse (stringified fields) = Ok (JObj fields) ->
  read_selector again = Some (ById (ToString id)) ->
  first =
    (Sent (from_store (JObj fields)),
     World (<[id_key id := (stringified fields, 3600)]> (redis w)) p'
       (log w ++ [EvRedis ["GET"; id_key id];
                  EvQuery by_id [JStr (ToString id)];
                  EvRedis ["SET"; id_key id; "EX"; "3600"]]))
  /\ getBusDetails (RC := redis_up) again (snd first) =
       (Sent (from_cache (JObj fields)),
        World (redis (snd first)) p'
          (log (snd first) ++ [EvRedis ["GET"; id_key id]])).
Proof.
  intros id by_id first Hid Hs Hnone Erows Hparse Hagain.
  assert (Efirst : first =
    (Sent (from_store (JObj fields)),
     World (<[id_key id := (stringified fields, 3600)]> (redis w)) p'
       (log w ++ [EvRedis ["GET"; id_key id];
                  EvQuery by_id [JStr (ToString id)];
                  EvRedis ["SET"; id_key id; "EX"; "3600"]]))).
  { subst first.
    assert (Ecache : cache_get (RC := redis_up) (id_key id) w
                     = (Ok JNull, World (redis w) (pg w)
                                    (log w ++ [EvRedis ["GET"; id_key id]]))).
    { apply cache_get_absent.
      change (redis_get (RedisClient := redis_up) (id_key id) (redis w))
        with (Ok (fst <$> redis w !! id_key id), redis w).
      rewrite Hnone. reflexivity. }
    pose proof (get_miss (RC := redis_up) req w (or_introl Hid) JNull) as Hrun.
    cbv zeta in Hrun. fold id in Hrun. rewrite (read_query_by_id _ _ Hid) in Hrun.
    fold (id_key id) in Hrun. rewrite (Hrun _ Ecache eq_refl). clear Hrun.
    rewrite fetchBusDetails_run. cbn [field String.eqb Ascii.eqb Bool.eqb].
    apply truthy_JStr in Hs. rewrite Hs. unfold repo_getById.
    rewrite db_getOne_run. fold by_id.
    rewrite (db_query_rows by_id _ (World (redis w) (pg w) _) _ p' Erows).
    unfold cache_put. rewrite cache_put_up by lia.
    cbn [snd log redis pg]. rewrite <- !app_assoc. reflexivity. }
  split; [exact Efirst|]. rewrite Efirst. cbn [snd redis log].
  set (w1 := World _ p' _).
  assert (Hsel : truthy (field "id" (req_query again)) = true
                 /\ ToString (field "id" (req_query again)) = ToString id).
  { unfold read_selector in Hagain.
    destruct (truthy (field "id" (req_query again))).
    - injection Hagain as ->. split; reflexivity.
    - destruct (truthy (field "route_number" (req_query again))); discriminate Hagain. }
  destruct Hsel as [Hid' Hs'].
  assert (Ecache : cache_get (RC := redis_up) (id_key id) w1
                   = (Ok (JObj fields),
                      World (redis w1) (pg w1) (log w1 ++ [EvRedis ["GET"; id_key id]]))).
  { apply cache_get_present with (text := stringified fields).
    - change (redis_get (RedisClient := redis_up) (id_key id) (redis w1))
        with (Ok (fst <$> redis w1 !! id_key id), redis w1).
      subst w1. cbn [redis]. rewrite lookup_insert_eq. reflexivity.
    - apply stringified_not_empty.
    - exact Hparse. }
  pose proof (get_hit (RC := redis_up) again w1 (or_introl Hid') (JObj fields)) as Hhit.
  cbv zeta in Hhit. rewrite (read_query_by_id _ _ Hid'), Hs' in Hhit.
  fold (id_key id) in Hhit. exact (Hhit _ Ecache eq_refl).
Qed.

(** [GET ?id=1] twice on the two routes. *)
Lemma second_read_is_served_from_the_cache_witness :
  let first :=
    getBusDetails (RC := redis_up) (PP := pg_pool) (JP := parser)
      (GET [("id", JStr "1")]) start in
  first =
    (Sent (from_store route_A1),
     World (<[id_key (JStr "1") :=
               (stringified [("id", JNum 1); ("route_no", JStr "A1")], 3600)]> ∅)
       bus_routes
       ([EvRedis ["GET"; id_key (JStr "1")];
         EvQuery (select_by_id_text BUS_DATA_TABLE) [JStr "1"];
         EvRedis ["SET"; id_key (JStr "1"); "EX"; "3600"]]))
  /\ getBusDetails (RC := redis_up) (PP := pg_pool) (JP := parser)
       (GET [("id", JStr "1"); ("route_number", JStr "B2")]) (snd first) =
       (Sent (from_cache route_A1),
        World (redis (snd first)) bus_routes
          (log (snd first) ++ [EvRedis ["GET"; id_key (JStr "1")]])).
Proof.
  apply (second_read_is_served_from_the_cache (PP := pg_pool) (JP := parser)
           (GET [("id", JStr "1")])
           (GET [("id", JStr "1"); ("route_number", JStr "B2")]) start
           [("id", JNum 1); ("route_no", JStr "A1")] [] bus_routes);
    first [reflexivity | discriminate].
Defined.

(* ===================================================================== *)
(** ** Further properties of [CacheService] on the keyspace *)
(* ===================================================================== *)

Section Healthy.

Context {P : Type} {JP : JsonParser}.

Implicit Types (w : world keyspace P) (key : string) (value : jsval).

Lemma exists_up key w :
  cache_exists (RC := redis_up) key w =
    (Ok (bool_decide (is_Some (redis w !! key))),
     World (redis w) (pg w) (log w ++ [EvRedis ["EXISTS"; key]])).
Proof.
  unfold cache_exists, try_catch, bind, ret, on_redis.
  change (redis_exists (RedisClient := redis_up) key (redis w))
    with (Ok (match redis w !! key with Some _ => 1 | None => 0 end), redis w).
  cbv beta iota. destruct (redis w !! key); reflexivity.
Qed.

Lemma size_up w :
  cache_size (RC := redis_up) w =
    (Ok (Z.of_nat (size (redis w))),
     World (redis w) (pg w) (log w ++ [EvRedis ["DBSIZE"]])).
Proof. reflexivity. Qed.

Lemma clear_up w :
  cache_clear (RC := redis_up) w =
    (Ok tt, World ∅ (pg w) (log w ++ [EvRedis ["FLUSHDB"]])).
Proof. reflexivity. Qed.

Lemma delete_up key w :
  cache_delete (RC := redis_up) key w =
    (Ok tt, World (delete key (redis w)) (pg w) (log w ++ [EvRedis ["DEL"; key]])).
Proof. reflexivity. Qed.

Lemma get_up key w :
  fst (cache_get (RC := redis_up) key w) =
    match redis w !! key with
    | Some (text, _) =>
        if String.eqb text "" then Ok JNull
        else match JSON_parse text with
             | Ok v => Ok v
             | Throw _ => Ok JNull
             end
    | None => Ok JNull
    end.
Proof.
  unfold cache_get, try_catch, bind, ret, lift_result, on_redis.
  change (redis_get (RedisClient := redis_up) key (redis w))
    with (Ok (fst <$> redis w !! key), redis w).
  cbv beta iota. destruct (redis w !! key) as [[text ttl]|]; [|reflexivity].
  cbn [fmap option_fmap option_map fst]. destruct (String.eqb text ""); [reflexivity|].
  cbn [negb]. destruct (JSON_parse text); reflexivity.
Qed.

End Healthy.

(** *** A value put is the value got *)

(** X7.  On an engine in good health, [put] then [get] of a key returns
    what [JSON.parse] makes of the [JSON.stringify] of the value ([null]
    if it cannot be parsed); the entry replaces whatever was under the
    key, carries the expiry given, and no other key is touched. *)
Theorem put_then_get
    {P : Type} {JP : JsonParser} (w : world keyspace P)
    (key text : string) (value : jsval) (ttl : Z) :
  let w1 := snd (cache_put_ttl (RC := redis_up) key value ttl w) in
  0 < ttl ->
  JSON_stringify value = Some text ->
  text <> "" ->
  fst (cache_get (RC := redis_up) key w1)
    = match JSON_parse text with
      | Ok v => Ok v
      | Throw _ => Ok JNull
      end
  /\ redis w1 !! key = Some (text, ttl)
  /\ (forall other, other <> key -> redis w1 !! other = redis w !! other)
  /\ pg w1 = pg w.
Proof.
  intros w1 Httl Htext Hne. subst w1. rewrite cache_put_up by exact Httl.
  cbn [snd redis pg]. rewrite Htext. cbn [default].
  split; [|split; [|split]].
  - rewrite get_up. cbn [redis]. rewrite lookup_insert_eq. unfold id.
    destruct (String.eqb_spec text ""); [contradiction | reflexivity].
  - apply lookup_insert_eq.
  - intros other Hother. apply lookup_insert_ne. congruence.
  - reflexivity.
Qed.

(** Route A1 put under a key of the empty cache and read back. *)
Lemma put_then_get_witness :
  let w1 :=
    snd (cache_put_ttl (RC := redis_up) (P := table) "k" route_A1 60 start) in
  fst (cache_get (RC := redis_up) (JP := parser) "k" w1) = Ok route_A1
  /\ redis w1 !! "k" = Some (stringified [("id", JNum 1); ("route_no", JStr "A1")], 60)
  /\ (forall other, other <> "k" -> redis w1 !! other = redis start !! other)
  /\ pg w1 = pg start.
Proof.
  apply (put_then_get (JP := parser) start "k"
           (stringified [("id", JNum 1); ("route_no", JStr "A1")]) route_A1 60).
  - lia.
  - reflexivity.
  - discriminate.
Defined.

(** *** The keyspace seen through [exists], [size], [delete] and [clear] *)

(** X8.  On an engine in good health: after [put] the key exists, and the
    size has grown by one unless the key was there already; after
    [delete] the key does not exist, reads as [null], and the size has
    shrunk by one if it was there; after [clear] the size is 0 and no key
    exists. *)
Theorem keyspace_bookkeeping
    {P : Type} {JP : JsonParser} (w : world keyspace P)
    (key : string) (value : jsval) :
  let put := snd (cache_put (RC := redis_up) key value w) in
  let deleted := snd (cache_delete (RC := redis_up) key w) in
  let cleared := snd (cache_clear (RC := redis_up) w) in
  let held := bool_decide (is_Some (redis w !! key)) in
  fst (cache_exists (RC := redis_up) key put) = Ok true
  /\ fst (cache_size (RC := redis_up) put)
     = Ok (Z.of_nat (size (redis w)) + (if held then 0 else 1))
  /\ fst (cache_exists (RC := redis_up) key deleted) = Ok false
  /\ fst (cache_get (RC := redis_up) key deleted) = Ok JNull
  /\ fst (cache_size (RC := redis_up) deleted)
     = Ok (Z.of_nat (size (redis w)) - (if held then 1 else 0))
  /\ fst (cache_size (RC := redis_up) cleared) = Ok 0
  /\ (forall k, fst (cache_exists (RC := redis_up) k cleared) = Ok false)
  /\ (forall k, fst (cache_get (RC := redis_up) k cleared) = Ok JNull).
Proof.
  intros put deleted cleared held. subst put deleted cleared held.
  unfold cache_put. rewrite cache_put_up by lia. rewrite delete_up, clear_up.
  cbn [snd]. rewrite !exists_up, !size_up, !get_up. cbn [fst redis].
  rewrite lookup_insert_eq, lookup_delete_eq, map_size_empty.
  split; [reflexivity|]. split.
  { destruct (redis w !! key) as [entry|] eqn:Hkey.
    - rewrite bool_decide_eq_true_2 by eauto.
      rewrite map_size_insert_Some by eauto. f_equal. lia.
    - rewrite bool_decide_eq_false_2 by (intros [? ?]; discriminate).
      rewrite map_size_insert_None by exact Hkey. f_equal. lia. }
  split; [reflexivity|]. split; [reflexivity|]. split.
  { destruct (redis w !! key) as [entry|] eqn:Hkey.
    - rewrite bool_decide_eq_true_2 by eauto.
      assert (is_Some (redis w !! key)) as Hsome by eauto.
      pose proof (map_size_delete_Some key (redis w) Hsome) as Hsize.
      assert (size (redis w) <> 0%nat) as Hfilled
        by (apply map_size_ne_0_lookup; eauto).
      f_equal. lia.
    - rewrite bool_decide_eq_false_2 by (intros [? ?]; discriminate).
      rewrite map_size_delete_None by exact Hkey. f_equal. lia. }
  split; [reflexivity|]. split.
  - intros k. rewrite exists_up. cbn [fst redis]. rewrite lookup_empty. reflexivity.
  - intros k. rewrite get_up. cbn [redis]. rewrite lookup_empty. reflexivity.
Qed.

(** *** An expiry that is not positive *)

(** X9.  [put] with an expiry of zero or less stores nothing: the engine
    refuses the SET, [put] logs the refusal and returns, and the keyspace
    is as it was, the previous entry of the key included. *)
Theorem put_with_no_positive_expiry
    {P : Type} (w : world keyspace P) (key : string) (value : jsval) (ttl : Z) :
  ttl <= 0 ->
  cache_put_ttl (RC := redis_up) key value ttl w =
    (Ok tt,
     World (redis w) (pg w)
       (log w ++ [EvRedis ["SET"; key; "EX"; num_to_string ttl];
                  error_line ("Failed to set value for key " ++ quoted key)
                    (JsError "ERR invalid expire time in 'set' command")])).
Proof.
  intros Httl. unfold cache_put_ttl, try_catch, on_redis, console_error, emit.
  change (redis_set (RedisClient := redis_up) key (JSON_stringify value) ttl (redis w))
    with (if ttl <=? 0
          then (Throw (JsError "ERR invalid expire time in 'set' command"), redis w)
          else (Ok tt, <[key := (default "" (JSON_stringify value), ttl)]> (redis w))).
  destruct (Z.leb_spec ttl 0); [|lia].
  cbn [log redis pg]. rewrite <- app_assoc. reflexivity.
Qed.

(** An expiry of zero. *)
Lemma put_with_no_positive_expiry_witness :
  cache_put_ttl (RC := redis_up) "k" route_A1 0 start =
    (Ok tt,
     World ∅ bus_routes
       [EvRedis ["SET"; "k"; "EX"; "0"];
        error_line ("Failed to set value for key " ++ quoted "k")
          (JsError "ERR invalid expire time in 'set' command")]).
Proof.
  apply (put_with_no_positive_expiry start "k" route_A1 0). lia.
Defined.

(* ===================================================================== *)
(** ** Keys do not collide *)
(* ===================================================================== *)

Lemma unquote_quote (c : ascii) (rest : string) :
  Unquote.unquote_char (quote_char c ++ rest) = Some (c, rest).
Proof.
  destruct c as [b0 b1 b2 b3 b4 b5 b6 b7];
    destruct b0, b1, b2, b3, b4, b5, b6, b7; reflexivity.
Qed.

Lemma quote_char_is_no_closing_quote (c : ascii) (rest after : string) :
  quote_char c ++ rest <> dquote ++ after.
Proof.
  intros E. pose proof (unquote_quote c rest) as Hc. rewrite E in Hc.
  change (Unquote.unquote_char (dquote ++ after))
    with (Some (ascii_of_nat 34, after)) in Hc.
  injection Hc as Hc _. subst c. discriminate E.
Qed.

(** The body of a quoted string ends at the first unescaped quote: two
    bodies followed by a quote agree only if the strings and what follows
    agree. *)
Lemma quote_body_closed_inj (s1 s2 r1 r2 : string) :
  quote_body s1 ++ dquote ++ r1 = quote_body s2 ++ dquote ++ r2 ->
  s1 = s2 /\ r1 = r2.
Proof.
  revert s2. induction s1 as [|c1 s1 IH]; intros [|c2 s2] E.
  - injection E as E. auto.
  - exfalso. change (quote_body (String c2 s2))
      with (quote_char c2 ++ quote_body s2) in E.
    rewrite append_assoc in E. symmetry in E.
    exact (quote_char_is_no_closing_quote _ _ _ E).
  - exfalso. change (quote_body (String c1 s1))
      with (quote_char c1 ++ quote_body s1) in E.
    rewrite append_assoc in E.
    exact (quote_char_is_no_closing_quote _ _ _ E).
  - change (quote_body (String c1 s1))
      with (quote_char c1 ++ quote_body s1) in E.
    change (quote_body (String c2 s2))
      with (quote_char c2 ++ quote_body s2) in E.
    rewrite !append_assoc in E.
    apply (f_equal Unquote.unquote_char) in E.
    rewrite !unquote_quote in E. injection E as Hc E.
    destruct (IH s2 E) as [Hs Hr]. subst. auto.
Qed.

Lemma id_key_text (id : string) :
  CacheKey (ById id)
    = "{" ++ dquote ++ "id" ++ dquote ++ ":" ++ dquote
        ++ quote_body id ++ dquote ++ "}".
Proof.
  transitivity ("{" ++ dquote ++ "id" ++ dquote ++ ":" ++ dquote
                  ++ (quote_body id ++ dquote) ++ "}"); [reflexivity|].
  rewrite append_assoc. reflexivity.
Qed.

Lemma route_number_key_text (route_number : string) :
  CacheKey (ByRouteNumber route_number)
    = "{" ++ dquote ++ "route_number" ++ dquote ++ ":" ++ dquote
        ++ quote_body route_number ++ dquote ++ "}".
Proof.
  transitivity ("{" ++ dquote ++ "route_number" ++ dquote ++ ":" ++ dquote
                  ++ (quote_body route_number ++ dquote) ++ "}");
    [reflexivity|].
  rewrite append_assoc. reflexivity.
Qed.

(** X10.  Two selectors have the same key only if they are the same
    selector: the keys of two identifiers, or of two route numbers, differ
    as soon as the texts differ, whatever characters they hold (quotes,
    backslashes and control characters included), and the key of an
    identifier is never the key of a route number. *)
Theorem keys_do_not_collide (s1 s2 : selector) :
  CacheKey s1 = CacheKey s2 <-> s1 = s2.
Proof.
  split; [|intros ->; reflexivity].
  destruct s1 as [id1|rn1], s2 as [id2|rn2].
  - rewrite !id_key_text. intros E. injection E as E.
    apply quote_body_closed_inj in E as [-> _]. reflexivity.
  - intros E. exfalso. cbn in E. discriminate E.
  - intros E. exfalso. cbn in E. discriminate E.
  - rewrite !route_number_key_text. intros E. injection E as E.
    apply quote_body_closed_inj in E as [-> _]. reflexivity.
Qed.

(* ===================================================================== *)
(** ** One repository per table *)
(* ===================================================================== *)

Section Registry.

Import Startup.

Implicit Types (reg : registry) (name : string) (names : list string).

Lemma requested_cons name names reg :
  requested (name :: names) reg
    = requested names (snd (DBRepository_getInstance name reg)).
Proof. reflexivity. Qed.

(** [getInstance] returns an object, the one the registry holds
    afterwards. *)
Lemma getInstance_returns name reg :
  exists r,
    fst (DBRepository_getInstance name reg) = Some r
    /\ instances (snd (DBRepository_getInstance name reg)) !! name = Some r.
Proof.
  unfold DBRepository_getInstance. cbn [fst snd].
  destruct (instances reg !! name) as [r|] eqn:Hname.
  - exists r. rewrite Hname. auto.
  - exists (Repository (constructions reg) name). cbn [instances].
    rewrite lookup_insert_eq. auto.
Qed.

(** An object of the registry is never replaced. *)
Lemma getInstance_keeps name other reg r :
  instances reg !! name = Some r ->
  instances (snd (DBRepository_getInstance other reg)) !! name = Some r.
Proof.
  intros Hname. unfold DBRepository_getInstance. cbn [snd].
  destruct (instances reg !! other) eqn:Hother; [exact Hname|].
  cbn [instances]. rewrite lookup_insert_ne; [exact Hname|].
  intros ->. congruence.
Qed.

Lemma requested_keeps name names reg r :
  instances reg !! name = Some r ->
  instances (requested names reg) !! name = Some r.
Proof.
  revert reg. induction names as [|other names IH]; intros reg Hname.
  - exact Hname.
  - rewrite requested_cons. apply IH, getInstance_keeps, Hname.
Qed.

Lemma getInstance_filed name reg :
  filed reg -> filed (snd (DBRepository_getInstance name reg)).
Proof.
  intros Hreg other r. unfold DBRepository_getInstance. cbn [snd].
  destruct (instances reg !! name) eqn:Hname; [apply Hreg|].
  cbn [instances]. destruct (decide (other = name)) as [->|Hne].
  - rewrite lookup_insert_eq. intros [= <-]. reflexivity.
  - rewrite lookup_insert_ne by congruence. apply Hreg.
Qed.

Lemma requested_filed names reg :
  filed reg -> filed (requested names reg).
Proof.
  revert reg. induction names as [|name names IH]; intros reg Hreg.
  - exact Hreg.
  - rewrite requested_cons. apply IH, getInstance_filed, Hreg.
Qed.

Lemma getInstance_counted name reg :
  counted reg -> counted (snd (DBRepository_getInstance name reg)).
Proof.
  unfold counted, DBRepository_getInstance. intros Hreg. cbn [snd].
  destruct (instances reg !! name) eqn:Hname; [exact Hreg|].
  cbn [instances constructions].
  rewrite map_size_insert_None by exact Hname. congruence.
Qed.

Lemma requested_counted names reg :
  counted reg -> counted (requested names reg).
Proof.
  revert reg. induction names as [|name names IH]; intros reg Hreg.
  - exact Hreg.
  - rewrite requested_cons. apply IH, getInstance_counted, Hreg.
Qed.

Lemma getInstance_dom name reg :
  dom (instances (snd (DBRepository_getInstance name reg)))
    = ({[name]} ∪ dom (instances reg) : gset string).
Proof.
  unfold DBRepository_getInstance. cbn [snd].
  destruct (instances reg !! name) eqn:Hname.
  - symmetry. apply subseteq_union_1_L, singleton_subseteq_l, elem_of_dom.
    eauto.
  - cbn [instances]. apply dom_insert_L.
Qed.

Lemma requested_dom names reg :
  dom (instances (requested names reg))
    = (list_to_set names ∪ dom (instances reg) : gset string).
Proof.
  revert reg. induction names as [|name names IH]; intros reg.
  - cbn [requested fold_left list_to_set]. rewrite (left_id_L ∅ (∪)).
    reflexivity.
  - rewrite requested_cons, IH, getInstance_dom.
    cbn [list_to_set]. rewrite (assoc_L (∪)).
    rewrite (comm_L (∪) (list_to_set names) {[name]}). reflexivity.
Qed.

End Registry.

(** X11.  After any sequence of [getInstance] calls, a call for a table
    returns a repository of that table; every later call for the table,
    whatever calls come in between, returns that same object; and the
    constructor has run once for each distinct table name asked for. *)
Theorem one_repository_per_table (names later : list string) (name : string) :
  let reg := Startup.requested names Startup.no_instances in
  let first := Startup.DBRepository_getInstance name reg in
  exists r,
    fst first = Some r
    /\ Startup.tableName r = name
    /\ fst (Startup.DBRepository_getInstance name
              (Startup.requested later (snd first))) = Some r
    /\ Startup.constructions reg = size (list_to_set names : gset string).
Proof.
  intros reg first. subst first.
  assert (Startup.filed reg) as Hfiled.
  { apply requested_filed. intros n r. cbn. rewrite lookup_empty. discriminate. }
  assert (Startup.counted reg) as Hcounted by (apply requested_counted; reflexivity).
  destruct (getInstance_returns name reg) as (r & Hfirst & Hheld).
  exists r. split; [exact Hfirst|]. split; [|split].
  - apply (getInstance_filed name reg Hfiled name r Hheld).
  - pose proof (requested_keeps name later _ r Hheld) as Hlater.
    unfold Startup.DBRepository_getInstance at 1. cbn [fst].
    rewrite Hlater. exact Hlater.
  - rewrite Hcounted, <- size_dom. subst reg. rewrite requested_dom.
    cbn [Startup.instances Startup.no_instances]. rewrite dom_empty_L.
    rewrite (right_id_L ∅ (∪)). reflexivity.
Qed.

(* ===================================================================== *)
(** ** Configuring the eviction policy *)
(* ===================================================================== *)

(** X12.  [configureLruPolicy] never raises, whatever the engine answers,
    and leaves the store alone.  It sends CONFIG SET maxmemory, with
    [MAX_LRU_SIZE] (10 when unset or empty) followed by [mb], then CONFIG
    SET maxmemory-policy allkeys-lru.  If the first is refused the second is
    not sent; a refusal is logged as an error line, and the line that
    reports the policy configured is logged only when both were
    accepted. *)
Theorem lru_policy_is_configured_or_logged
    {R P : Type} {RA : Startup.RedisAdmin R}
    (env : Startup.environment) (w : world R P) :
  let memory := Startup.env_or env "MAX_LRU_SIZE" "10" ++ "mb" in
  let set_memory := EvRedis ["CONFIG"; "SET"; "maxmemory"; memory] in
  let set_policy := EvRedis ["CONFIG"; "SET"; "maxmemory-policy"; "allkeys-lru"] in
  let refused := error_line "Failed to configure Redis LRU policy:" in
  let configured := EvConsole LogLevel "Redis LRU policy configured:" None in
  match Startup.redis_config_set "maxmemory" memory (redis w) with
  | (Throw e, m1) =>
      Startup.configureLruPolicy env w
        = (Ok tt, World m1 (pg w) (log w ++ [set_memory; refused e]))
  | (Ok _, m1) =>
      match Startup.redis_config_set "maxmemory-policy" "allkeys-lru" m1 with
      | (Throw e, m2) =>
          Startup.configureLruPolicy env w
            = (Ok tt, World m2 (pg w)
                 (log w ++ [set_memory; set_policy; refused e]))
      | (Ok _, m2) =>
          Startup.configureLruPolicy env w
            = (Ok tt, World m2 (pg w)
                 (log w ++ [set_memory; set_policy; configured]))
      end
  end.
Proof.
  intros memory set_memory set_policy refused configured.
  unfold Startup.configureLruPolicy, Startup.getLruConfig, Startup.for_each.
  unfold_eff. cbn [fst snd redis pg log]. fold memory.
  destruct (Startup.redis_config_set "maxmemory" memory (redis w))
    as [[reply1|e1] m1].
  - cbn [redis pg log].
    destruct (Startup.redis_config_set "maxmemory-policy" "allkeys-lru" m1)
      as [[reply2|e2] m2]; cbn [redis pg log]; rewrite <- !app_assoc;
      reflexivity.
  - cbn [redis pg log]. rewrite <- !app_assoc. reflexivity.
Qed.

(* ===================================================================== *)
(** ** The database service is built once *)
(* ===================================================================== *)

(** X13.  The first [DBService.getInstance()] builds the pool from
    [NEON_DB_URL], with certificate verification switched off, and every
    later call returns that service without reading the environment
    again.  If the variable is unset or empty the call raises and no
    instance is kept, so that the next call tries again. *)
Theorem database_service_is_built_once (env later : Startup.environment) :
  match Startup.DBService_getInstance env None with
  | (Ok service, instance) =>
      env !! "NEON_DB_URL" = Some (Startup.connectionString service)
      /\ Startup.connectionString service <> ""
      /\ Startup.rejectUnauthorized service = false
      /\ instance = Some service
      /\ Startup.DBService_getInstance later instance = (Ok service, instance)
  | (Throw e, instance) =>
      e = JsError "NEON_DB_URL is not defined in the environment variables."
      /\ instance = None
      /\ (env !! "NEON_DB_URL" = None \/ env !! "NEON_DB_URL" = Some "")
  end.
Proof.
  unfold Startup.DBService_getInstance, Startup.new_DBService, Startup.getDBUrl.
  destruct (env !! "NEON_DB_URL") as [dbUrl|]; [|auto].
  destruct (String.eqb_spec dbUrl "") as [->|Hset]; [auto|].
  cbn. auto.
Qed.

(* ===================================================================== *)
(** ** Values and their placeholders *)
(* ===================================================================== *)








